(** * Serena relay: the request-forwarding core of [relay.py]

    A shallow embedding of the [proxy] handler and of the
    [stream_with_keepalive] generator, with the properties of the
    forwarding subsystem stated over it.

    Python values are embedded as follows.
    - [bytes] and [str] are both [string]; a [str] stands for its UTF-8
      bytes.
    - A [dict] with string keys holding strings (the header mappings) is a
      [gmap string string]; Python's [dict] is case-sensitive and so is this.
    - A decoded JSON document is a [json] tree; a JSON object keeps its
      members as an association list read from the left, an [int] is a [Z]
      and a [float] is an IEEE 754 value ([spec_float]).
    - Raising is explicit: a computation that may raise returns a [result].
    - What the handler does to the outside world (opening and closing the
      HTTP client, the upstream call, the chunks written to the caller,
      sleeping) is recorded as a list of [event]s. *)

From Stdlib Require Import ZArith SpecFloat Ascii String.
From stdpp Require Import base option list strings gmap.

Open Scope string_scope.
Open Scope Z_scope.

(** ** Exceptions *)

(** The handler tells [httpx.RequestError] from every other [Exception];
    [str(e)] is the message carried. *)
Inductive exn :=
| RequestError (msg : string)
| OtherException (msg : string).

Definition str_exn (e : exn) : string :=
  match e with
  | RequestError msg => msg
  | OtherException msg => msg
  end.

Inductive result (A : Type) :=
| Ok (a : A)
| Raise (e : exn).

Arguments Ok {A} a.
Arguments Raise {A} e.

Definition rbind {A B} (r : result A) (k : A → result B) : result B :=
  match r with
  | Ok a => k a
  | Raise e => Raise e
  end.

Notation "'let!' x ':=' r 'in' k" := (rbind r (λ x, k))
  (at level 10, x name, r at level 100, k at level 200, only parsing).

(** ** JSON values as [json.loads] returns them *)

#[warnings="-register-all"]
Inductive json :=
| JNull
| JBool (b : bool)
| JInt (z : Z)
| JFloat (f : spec_float)
| JStr (s : string)
| JArr (items : list json)
| JObj (members : list (string * json)).

Definition TypeError := OtherException "TypeError".
Definition AttributeError := OtherException "AttributeError".
Definition KeyError := OtherException "KeyError".

(** [d.get(key)] and [key in d] on a dict. *)
Fixpoint obj_get (key : string) (members : list (string * json)) : option json :=
  match members with
  | [] => None
  | (k, v) :: rest => if decide (k = key) then Some v else obj_get key rest
  end.

(** [x == s] for a string literal [s]: only an equal [str] compares equal. *)
Definition eq_str (x : json) (s : string) : bool :=
  match x with
  | JStr t => bool_decide (t = s)
  | _ => false
  end.

(** [s in x]: key membership on a dict, element membership on a list,
    substring search on a string, [TypeError] on anything else. *)
Definition py_contains (s : string) (x : json) : result bool :=
  match x with
  | JObj members => Ok (bool_decide (is_Some (obj_get s members)))
  | JArr items => Ok (existsb (λ i, eq_str i s) items)
  | JStr t => Ok (bool_decide (is_Some (String.index 0 s t)))
  | _ => Raise TypeError
  end.

(** [x[s]] with a string subscript. *)
Definition py_getitem (x : json) (s : string) : result json :=
  match x with
  | JObj members =>
      match obj_get s members with
      | Some v => Ok v
      | None => Raise KeyError
      end
  | _ => Raise TypeError
  end.

(** [x.get(s)]: only a dict has the method; a missing key gives [None]. *)
Definition py_get (x : json) (s : string) : result json :=
  match x with
  | JObj members => Ok (default JNull (obj_get s members))
  | _ => Raise AttributeError
  end.

(** Truth value of a decoded document, as [content if content else {}]
    tests it; a [float] is false when it equals zero, of either sign. *)
Definition truthy (x : json) : bool :=
  match x with
  | JNull => false
  | JBool b => b
  | JInt z => negb (z =? 0)
  | JFloat f => match f with S754_zero _ => false | _ => true end
  | JStr s => negb (bool_decide (s = EmptyString))
  | JArr items => negb (bool_decide (items = []))
  | JObj members => negb (bool_decide (members = []))
  end.

(** ** Header mappings *)

(** [dict(pairs)]: a later pair replaces an earlier one with the same key. *)
Definition dict (pairs : list (string * string)) : gmap string string :=
  fold_left (λ d kv, <[kv.1 := kv.2]> d) pairs ∅.

(** Lines 351-359: the header mapping sent upstream. [d.pop(k, None)]
    removes exactly the key [k]; ["content-type" not in headers] tests
    exactly that key. *)
Definition outbound_headers (request_headers : list (string * string))
  : gmap string string :=
  let headers := dict request_headers in
  let headers := delete "authorization" headers in
  let headers := delete "Authorization" headers in
  if decide (is_Some (headers !! "content-type")) then headers
  else <["content-type" := "application/json"]> headers.

(** ASCII case folding, to speak about a header name "under any casing". *)
Definition lower_ascii (c : ascii) : ascii :=
  let n := nat_of_ascii c in
  if ((65 <=? n) && (n <=? 90))%nat then ascii_of_nat (n + 32) else c.

Fixpoint lower (s : string) : string :=
  match s with
  | EmptyString => EmptyString
  | String c rest => String (lower_ascii c) (lower rest)
  end.

(** ** The outbound call and the upstream response *)

(** The keyword arguments of [client.post]; [stream] is [false] where the
    call site does not pass it. Timeouts are in seconds. *)
Record post_call := PostCall {
  url : string;
  content : string;
  headers : gmap string string;
  auth : string * string;
  timeout : Z;
  stream : bool
}.

(** An [httpx.Headers] object: the header lines of the response, in the
    order and spelling in which upstream sent them. *)
Record Headers := { lines : list (string * string) }.

(** The values of the lines named [key], a name in lower case, joined with
    a comma and a space: httpx compares names in lower case and merges the
    lines of one name. *)
Definition header_value (key : string) (ls : list (string * string))
  : option string :=
  fold_left
    (λ acc line,
       if decide (lower line.1 = key) then
         Some (match acc with
               | Some v => v ++ ", " ++ line.2
               | None => line.2
               end)
       else acc)
    ls None.

(** [h.get(key)] *)
Definition get (h : Headers) (key : string) : option string :=
  header_value (lower key) (lines h).

(** One line taken into the dict [h.items()] builds: the value is appended
    to the entry of the name when there is one, and a new entry is added
    at the end otherwise. *)
Fixpoint merge_line (key value : string) (d : list (string * string))
  : list (string * string) :=
  match d with
  | [] => [(key, value)]
  | (k, v) :: rest =>
      if decide (k = key) then (k, v ++ ", " ++ value) :: rest
      else (k, v) :: merge_line key value rest
  end.

(** [h.items()]: one pair per name, the name in lower case. *)
Definition items (h : Headers) : list (string * string) :=
  fold_left (λ d line, merge_line (lower line.1) line.2 d) (lines h) [].

(** An [httpx.Response]: [json_content] is the byte string [response.json()]
    decodes, [aiter_bytes] the chunks the body iterator will produce. *)
Record upstream_response := {
  status_code : Z;
  response_headers_of : Headers;
  json_content : string;
  text : string;
  aiter_bytes : list string
}.

(** ** Events *)

(** Which [yield] of [stream_with_keepalive] produced a chunk: line 328
    (an upstream chunk) or line 333 (the filler). *)
Inductive origin := FromUpstream | KeepAlive.

(** [Post call] records that [client.post] is called with the arguments
    [call], whether or not the call goes through. *)
Inductive event :=
| ClientOpen (timeout : Z)
| Post (call : post_call)
| ClientClose
| Yield (o : origin) (chunk : string)
| Sleep (seconds : Z).

(** ** The keepalive relay *)

Definition KEEP_ALIVE_INTERVAL : Z := 10.

(** [b"\n"] *)
Definition newline : string := String (ascii_of_nat 10) EmptyString.

(** The generator between two events: inside the [async for] with the
    chunks still to come, or inside [while True] before its [yield] or
    before its [await asyncio.sleep]. *)
Inductive generator :=
| AsyncFor (response_stream : list string) (keep_alive_interval : Z)
| WhileYield (keep_alive_interval : Z)
| WhileSleep (keep_alive_interval : Z).

Definition stream_with_keepalive (response_stream : list string) : generator :=
  AsyncFor response_stream KEEP_ALIVE_INTERVAL.

(** Resume the generator up to its next event. An exhausted [async for]
    falls through to the first [yield] of the [while True] loop. *)
Definition resume (g : generator) : event * generator :=
  match g with
  | AsyncFor (chunk :: rest) i => (Yield FromUpstream chunk, AsyncFor rest i)
  | AsyncFor [] i => (Yield KeepAlive newline, WhileSleep i)
  | WhileYield i => (Yield KeepAlive newline, WhileSleep i)
  | WhileSleep i => (Sleep i, WhileYield i)
  end.

(** The first [n] events of the generator, and where it then stands; the
    consumer cancels it by not resuming it again. *)
Fixpoint drain (n : nat) (g : generator) : list event * generator :=
  match n with
  | O => ([], g)
  | S n' =>
      let '(e, g') := resume g in
      let '(es, g'') := drain n' g' in
      (e :: es, g'')
  end.

(** The two states of the relay. *)
Inductive phase := FORWARDING | KEEPALIVE.

Definition phase_of (g : generator) : phase :=
  match g with
  | AsyncFor _ _ => FORWARDING
  | _ => KEEPALIVE
  end.

(** ** Responses *)

Inductive response :=
| JSONResponse (content : json) (status_code : Z)
    (headers : gmap string string)
| StreamingResponse (content : generator) (status_code : Z)
    (headers : gmap string string) (media_type : string).

Definition response_headers (r : response) : gmap string string :=
  match r with
  | JSONResponse _ _ h => h
  | StreamingResponse _ _ h _ => h
  end.

(** ** The inbound request *)

(** The header lines of the request as the client sent them, and the
    outcome of [await request.body()]. *)
Record request := {
  header_lines : list (string * string);
  request_body : result string
}.

(** [request.headers.items()]: one pair per line, in order; the ASGI server
    hands the names over in lower case. *)
Definition request_headers (req : request) : list (string * string) :=
  (λ line, (lower line.1, line.2)) <$> header_lines req.

(** ** The streaming classifier *)

Section Classifier.
(** [json.loads], the decoder of the standard library. *)
Variable json_loads : string → result json.

(** The body of the [try] at lines 367-371; [and] evaluates its right
    operand only when the left one is true. *)
Definition classify_try (body : string) : result bool :=
  let! body_json := json_loads body in
  let! has := py_contains "function_call" body_json in
  if has : bool then
    let! function_call := py_getitem body_json "function_call" in
    let! name := py_get function_call "name" in
    Ok (eq_str name "search_code")
  else Ok false.

(** [is_streaming] starts at [False]; the bare [except: pass] keeps it
    [False] whatever was raised. *)
Definition is_streaming (body : string) : bool :=
  match classify_try body with
  | Ok b => b
  | Raise _ => false
  end.
End Classifier.

(** ** The handler *)

(** A computation of the handler: it reads and changes the state of the
    upstream service, may raise, and leaves a list of events. *)
Definition M (U A : Type) : Type := U → result A * U * list event.

Definition mret {U A} (a : A) : M U A := λ u, (Ok a, u, []).

Definition mbind {U A B} (m : M U A) (k : A → M U B) : M U B :=
  λ u,
    let '(r, u', es) := m u in
    match r with
    | Ok a => let '(r', u'', es') := k a u' in (r', u'', (es ++ es')%list)
    | Raise e => (Raise e, u', es)
    end.

Notation "'let*' x ':=' m 'in' k" := (mbind m (λ x, k))
  (at level 10, x name, m at level 100, k at level 200, only parsing).

Definition lift {U A} (r : result A) : M U A := λ u, (r, u, []).

(** [async with httpx.AsyncClient(timeout=t) as client: block]: the client
    is closed when control leaves the block, by [return] as by an
    exception. *)
Definition async_with_client {U A} (t : Z) (block : M U A) : M U A :=
  λ u,
    let '(r, u', es) := block u in
    (r, u', (ClientOpen t :: es ++ [ClientClose])%list).

(** What [client.post(..., stream=True)] raises. *)
Definition stream_keyword_error : exn :=
  OtherException
    "AsyncClient.post() got an unexpected keyword argument 'stream'".

Definition ACAO : string := "Access-Control-Allow-Origin".
Definition ACAC : string := "Access-Control-Allow-Credentials".

Section Handler.
Variable json_loads : string → result json.
(** The upstream service: its state, and how it answers a call that the
    client sends. *)
Variable U : Type.
Variable upstream : post_call → U → result upstream_response * U.
(** What [JSONResponse(content=c, status_code=s, headers=h)] raises, if
    anything: Starlette encodes the body and the headers when the response
    is constructed. *)
Variable json_response_raises : json → gmap string string → option exn.
(** [os.environ] *)
Variable environ : gmap string string.

(** Line 28. *)
Definition UPSTREAM_URL : string :=
  default "https://serena-mcp.fly.dev" (environ !! "UPSTREAM_URL").

(** [await client.post(...)]: [post] has no parameter [stream], so a call
    that passes it raises before anything is sent. *)
Definition client_post (call : post_call) : M U upstream_response :=
  λ u,
    if stream call then (Raise stream_keyword_error, u, [Post call])
    else let '(r, u') := upstream call u in (r, u', [Post call]).

(** [JSONResponse(content=..., status_code=..., headers=...)] *)
Definition new_JSONResponse (content : json) (status_code : Z)
  (headers : gmap string string) : M U response :=
  lift (match json_response_raises content headers with
        | Some e => Raise e
        | None => Ok (JSONResponse content status_code headers)
        end).

(** Lines 392-394 and 421-423. *)
Definition with_cors (h : Headers) : gmap string string :=
  let response_headers := dict (items h) in
  let response_headers := <[ACAO := "*"]> response_headers in
  <[ACAC := "false"]> response_headers.

(** Lines 347-429: the body of the outer [try]. The streaming branch is
    written out as the source has it; the call that opens it raises, so
    what follows the call is never run. *)
Definition proxy_try (endpoint : string) (req : request) : M U response :=
  let* body := lift (request_body req) in
  let headers := outbound_headers (request_headers req) in
  let upstream_url := UPSTREAM_URL ++ "/" ++ endpoint in
  let is_streaming := is_streaming json_loads body in
  let auth := ("serena", default "password123" (environ !! "SERENA_PASSWORD")) in
  async_with_client 300 (
    if is_streaming then
      let* response := client_post (PostCall upstream_url body headers auth 300 true) in
      mret (StreamingResponse
              (stream_with_keepalive (aiter_bytes response))
              (status_code response)
              (with_cors (response_headers_of response))
              (default "application/json"
                 (get (response_headers_of response) "content-type")))
    else
      let* response := client_post (PostCall upstream_url body headers auth 60 false) in
      let content :=
        match json_loads (json_content response) with
        | Ok v => v
        | Raise _ => JObj [("raw_response", JStr (text response))]
        end in
      new_JSONResponse
        (if truthy content then content else JObj [])
        (status_code response)
        (with_cors (response_headers_of response))).

(** Lines 430-449: the two [except] clauses. *)
Definition on_exception (e : exn) : response :=
  match e with
  | RequestError msg =>
      JSONResponse
        (JObj [("error", JStr ("Error forwarding request: " ++ msg))])
        500
        (dict [(ACAO, "*"); (ACAC, "false")])
  | OtherException msg =>
      JSONResponse
        (JObj [("error", JStr ("Unexpected error: " ++ msg))])
        500
        (dict [(ACAO, "*"); (ACAC, "false")])
  end.

(** The handler [proxy]: what it returns, the upstream state it leaves,
    and its events. *)
Definition proxy (endpoint : string) (req : request)
  : U → response * U * list event :=
  λ u,
    let '(r, u', es) := proxy_try endpoint req u in
    match r with
    | Ok resp => (resp, u', es)
    | Raise e => (on_exception e, u', es)
    end.

(** The call the handler issues for a request whose body was read. *)
Definition issued_call (endpoint body : string)
  (hdrs : list (string * string)) : post_call :=
  let s := is_streaming json_loads body in
  PostCall (UPSTREAM_URL ++ "/" ++ endpoint) body (outbound_headers hdrs)
    ("serena", default "password123" (environ !! "SERENA_PASSWORD"))
    (if s then 300 else 60) s.

(** The calls among a list of events. *)
Definition posts (es : list event) : list post_call :=
  omap (λ e, match e with Post c => Some c | _ => None end) es.

End Handler.

Arguments client_post {U} upstream call _.
Arguments proxy_try json_loads {U} upstream json_response_raises environ
  endpoint req _.
Arguments proxy json_loads {U} upstream json_response_raises environ
  endpoint req _.

(** ** Sample inputs *)

Definition dq : string := String (ascii_of_nat 34) EmptyString.

Definition quoted (s : string) : string := dq ++ s ++ dq.

(** The request body of the [search_code] example at lines 93-102, without
    its parameters. *)
Definition search_code_body : string :=
  "{" ++ quoted "function_call" ++ ": {" ++ quoted "name" ++ ": "
      ++ quoted "search_code" ++ "}}".

Definition read_file_body : string :=
  "{" ++ quoted "function_call" ++ ": {" ++ quoted "name" ++ ": "
      ++ quoted "read_file" ++ "}}".

Definition result_1_body : string := "{" ++ quoted "result" ++ ": 1}".

(** [json.loads] on the documents used in the examples; any other input is
    taken as one that does not decode. *)
Definition example_loads (s : string) : result json :=
  if decide (s = search_code_body) then
    Ok (JObj [("function_call", JObj [("name", JStr "search_code")])])
  else if decide (s = read_file_body) then
    Ok (JObj [("function_call", JObj [("name", JStr "read_file")])])
  else if decide (s = result_1_body) then Ok (JObj [("result", JInt 1)])
  else if decide (s = "[]") then Ok (JArr [])
  else if decide (s = "{}") then Ok (JObj [])
  else if decide (s = "0") then Ok (JInt 0)
  else Raise (OtherException "JSONDecodeError").

Definition no_headers : Headers := {| lines := [] |}.

(** A client whose upstream answers every call with status 200, the given
    headers and the given body, and keeps no state; a call that passes
    [stream] raises, as [client.post] does. *)
Definition answers_with (h : Headers) (body : string) (chunks : list string)
  : post_call → unit → result upstream_response * unit :=
  λ call _,
    if stream call then (Raise stream_keyword_error, tt)
    else (Ok {| status_code := 200; response_headers_of := h;
                json_content := body; text := body;
                aiter_bytes := chunks |}, tt).

(** No [NaN] and no infinity anywhere in a document. *)
Fixpoint json_compliant (v : json) : bool :=
  match v with
  | JFloat S754_nan => false
  | JFloat (S754_infinity _) => false
  | JArr items => forallb json_compliant items
  | JObj members => forallb (λ kv, json_compliant kv.2) members
  | _ => true
  end.

(** A [str] that [encode("latin-1")] accepts: in UTF-8, one with no code
    point above 255, that is, with no byte above [0xC3]. *)
Definition latin_1 (s : string) : bool :=
  forallb (λ c, (nat_of_ascii c <? 196)%nat) (list_ascii_of_string s).

(** A sample of what constructing a [JSONResponse] raises: [ValueError]
    from [json.dumps(..., allow_nan=False)] on a document that is not
    compliant, then [UnicodeEncodeError] from the latin-1 encoding of the
    headers. *)
Definition starlette_raises (content : json) (headers : gmap string string)
  : option exn :=
  if negb (json_compliant content) then
    Some (OtherException
            "Out of range float values are not JSON compliant")
  else if forallb (λ kv, latin_1 kv.1 && latin_1 kv.2) (map_to_list headers)
  then None
  else Some (OtherException "UnicodeEncodeError").

(** The three bytes of the check mark U+2713 in UTF-8. *)
Definition check_mark : string :=
  String (ascii_of_nat 226)
    (String (ascii_of_nat 156) (String (ascii_of_nat 147) EmptyString)).

Definition answers := answers_with no_headers.

(** Upstream headers that carry a CORS origin of their own. *)
Definition own_origin : Headers :=
  {| lines := [("Access-Control-Allow-Origin", "https://example.org")] |}.

(** Upstream headers with a value that latin-1 cannot encode. *)
Definition with_check_mark : Headers :=
  {| lines := [("x-note", check_mark)] |}.

(** An upstream that cannot be reached. *)
Definition refuses : post_call → unit → result upstream_response * unit :=
  λ _ _, (Raise (RequestError "All connection attempts failed"), tt).

Definition post_of (body : string) : request :=
  {| header_lines := []; request_body := Ok body |}.

(** ** What the claims speak about *)

(** A decoded body "containing a [function_call] object whose [name] field
    equals [search_code]". *)
Definition names_search_code (v : json) : Prop :=
  ∃ members fc,
    v = JObj members
    ∧ obj_get "function_call" members = Some (JObj fc)
    ∧ obj_get "name" fc = Some (JStr "search_code").

(** [k] spells the header name [name] in some casing. *)
Definition spells (name k : string) : Prop := lower k = lower name.

(** The events of [k] rounds of the keepalive loop. *)
Fixpoint keepalive_rounds (k : nat) : list event :=
  match k with
  | O => []
  | S k' => Yield KeepAlive newline :: Sleep 10 :: keepalive_rounds k'
  end.

(** The synthetic failure response: status 500, a JSON body
    [{"error": description}], and the two CORS headers. *)
Definition is_failure_response (r : response) : Prop :=
  ∃ description h,
    r = JSONResponse (JObj [("error", JStr description)]) 500 h
    ∧ h !! ACAO = Some "*"
    ∧ h !! ACAC = Some "false".

(** The body of the buffered response: what [response.json()] gives, or
    the envelope around the text, and [{}] in place of a value Python
    counts as false. *)
Definition buffered_content (json_loads : string → result json)
  (resp : upstream_response) : json :=
  let content :=
    match json_loads (json_content resp) with
    | Ok v => v
    | Raise _ => JObj [("raw_response", JStr (text resp))]
    end in
  if truthy content then content else JObj [].

(** The response assembler as the contract words it: a successful buffered
    answer whose body decodes is relayed with exactly the decoded value. *)
Definition relays_decoded_value_verbatim : Prop :=
  ∀ (json_loads : string → result json) (U : Type)
    (upstream : post_call → U → result upstream_response * U)
    (json_response_raises : json → gmap string string → option exn)
    (environ : gmap string string) (endpoint body : string) (req : request)
    (u u' : U) (resp : upstream_response) (v : json),
    request_body req = Ok body →
    is_streaming json_loads body = false →
    upstream (issued_call json_loads environ endpoint body
                (request_headers req)) u = (Ok resp, u') →
    json_loads (json_content resp) = Ok v →
    ∃ h, (proxy json_loads upstream json_response_raises environ endpoint
            req u).1.1
           = JSONResponse v (status_code resp) h
         ∧ h !! ACAO = Some "*".

(** The falsy guard as the claim words it: whenever a successful buffered
    answer decodes to a value Python counts as false, the relayed body is
    the empty object. *)
Definition falsy_body_always_relayed_as_empty_object : Prop :=
  ∀ (json_loads : string → result json) (U : Type)
    (upstream : post_call → U → result upstream_response * U)
    (json_response_raises : json → gmap string string → option exn)
    (environ : gmap string string) (endpoint body : string) (req : request)
    (u u' : U) (resp : upstream_response) (v : json),
    request_body req = Ok body →
    is_streaming json_loads body = false →
    upstream (issued_call json_loads environ endpoint body
                (request_headers req)) u = (Ok resp, u') →
    json_loads (json_content resp) = Ok v →
    truthy v = false →
    ∃ st h, (proxy json_loads upstream json_response_raises environ endpoint
               req u).1.1
            = JSONResponse (JObj []) st h.

(** ** The documented functions and the schema routes *)

(** Lines 49-143. *)
Definition SERENA_FUNCTIONS : list (string * json) := [
  ("find_symbol", JObj [
    ("description", JStr "Find symbols in code repositories");
    ("parameters", JObj [
      ("query", JObj [
        ("type", JStr "string");
        ("description", JStr "Search query for finding symbols")]);
      ("repo_path", JObj [
        ("type", JStr "string");
        ("description", JStr "Path to the repository to search in")]);
      ("limit", JObj [
        ("type", JStr "integer");
        ("description", JStr "Maximum number of results to return")])]);
    ("example", JObj [
      ("function_call", JObj [
        ("name", JStr "find_symbol");
        ("parameters", JObj [
          ("query", JStr "function getUser");
          ("repo_path", JStr "/path/to/repo");
          ("limit", JInt 10)])])])]);
  ("search_code", JObj [
    ("description", JStr "Search for code with semantic understanding");
    ("parameters", JObj [
      ("query", JObj [
        ("type", JStr "string");
        ("description", JStr "Natural language query to search for code")]);
      ("repo_path", JObj [
        ("type", JStr "string");
        ("description", JStr "Path to the repository to search in")]);
      ("limit", JObj [
        ("type", JStr "integer");
        ("description", JStr "Maximum number of results to return")])]);
    ("example", JObj [
      ("function_call", JObj [
        ("name", JStr "search_code");
        ("parameters", JObj [
          ("query", JStr "how to handle authentication");
          ("repo_path", JStr "/path/to/repo");
          ("limit", JInt 5)])])])]);
  ("write_file", JObj [
    ("description", JStr "Write content to a file");
    ("parameters", JObj [
      ("filepath", JObj [
        ("type", JStr "string");
        ("description", JStr "Path to the file to write")]);
      ("content", JObj [
        ("type", JStr "string");
        ("description", JStr "Content to write to the file")])]);
    ("example", JObj [
      ("function_call", JObj [
        ("name", JStr "write_file");
        ("parameters", JObj [
          ("filepath", JStr "/path/to/file.txt");
          ("content", JStr "Hello, world!")])])])]);
  ("read_file", JObj [
    ("description", JStr "Read content from a file");
    ("parameters", JObj [
      ("filepath", JObj [
        ("type", JStr "string");
        ("description", JStr "Path to the file to read")])]);
    ("example", JObj [
      ("function_call", JObj [
        ("name", JStr "read_file");
        ("parameters", JObj [
          ("filepath", JStr "/path/to/file.txt")])])])])
].

(** A dict comprehension [{key(k): value(k, v) for k, v in d.items()}]
    whose value expression may raise. *)
Fixpoint comprehension (key : string → string)
  (value : string → json → result json) (d : list (string * json))
  : result (list (string * json)) :=
  match d with
  | [] => Ok []
  | (k, v) :: rest =>
      let! item := value k v in
      let! others := comprehension key value rest in
      Ok ((key k, item) :: others)
  end.

(** Lines 148-213: the schema built by [get_openapi_schema] from a table
    of functions. *)
Definition openapi_json_schema (functions : list (string * json))
  : result json :=
  let! paths :=
    comprehension (λ function_name, "/proxy/" ++ function_name)
      (λ function_name function_info,
         let! summary := py_getitem function_info "description" in
         let! properties := py_getitem function_info "parameters" in
         let! example := py_getitem function_info "example" in
         Ok (JObj [
           ("post", JObj [
             ("summary", summary);
             ("security", JArr [JObj [("none", JArr [])]]);
             ("requestBody", JObj [
               ("content", JObj [
                 ("application/json", JObj [
                   ("schema", JObj [
                     ("type", JStr "object");
                     ("properties", JObj [
                       ("function_call", JObj [
                         ("type", JStr "object");
                         ("properties", JObj [
                           ("name", JObj [
                             ("type", JStr "string");
                             ("enum", JArr [JStr function_name])]);
                           ("parameters", JObj [
                             ("type", JStr "object");
                             ("properties", properties)])]);
                         ("required",
                          JArr [JStr "name"; JStr "parameters"])])]);
                     ("required", JArr [JStr "function_call"])]);
                   ("example", example)])])]);
             ("responses", JObj [
               ("200", JObj [
                 ("description", JStr "Successful response");
                 ("content", JObj [
                   ("application/json", JObj [
                     ("schema", JObj [("type", JStr "object")])])])])])])]))
      functions in
  Ok (JObj [
    ("openapi", JStr "3.0.0");
    ("info", JObj [
      ("title", JStr "Serena API");
      ("description", JStr "API for code search and manipulation");
      ("version", JStr "1.0.0")]);
    ("security", JArr [JObj [("none", JArr [])]]);
    ("components", JObj [
      ("securitySchemes", JObj [
        ("none", JObj [
          ("type", JStr "http");
          ("scheme", JStr "bearer");
          ("description",
           JStr "No authentication required. This API is open.")])])]);
    ("paths", JObj paths)]).

(** Lines 225-290: the schema built by [get_openapi_schema_text], a second
    copy of the same literal. *)
Definition openapi_txt_schema (functions : list (string * json))
  : result json :=
  let! paths :=
    comprehension (λ function_name, "/proxy/" ++ function_name)
      (λ function_name function_info,
         let! summary := py_getitem function_info "description" in
         let! properties := py_getitem function_info "parameters" in
         let! example := py_getitem function_info "example" in
         Ok (JObj [
           ("post", JObj [
             ("summary", summary);
             ("security", JArr [JObj [("none", JArr [])]]);
             ("requestBody", JObj [
               ("content", JObj [
                 ("application/json", JObj [
                   ("schema", JObj [
                     ("type", JStr "object");
                     ("properties", JObj [
                       ("function_call", JObj [
                         ("type", JStr "object");
                         ("properties", JObj [
                           ("name", JObj [
                             ("type", JStr "string");
                             ("enum", JArr [JStr function_name])]);
                           ("parameters", JObj [
                             ("type", JStr "object");
                             ("properties", properties)])]);
                         ("required",
                          JArr [JStr "name"; JStr "parameters"])])]);
                     ("required", JArr [JStr "function_call"])]);
                   ("example", example)])])]);
             ("responses", JObj [
               ("200", JObj [
                 ("description", JStr "Successful response");
                 ("content", JObj [
                   ("application/json", JObj [
                     ("schema", JObj [("type", JStr "object")])])])])])])]))
      functions in
  Ok (JObj [
    ("openapi", JStr "3.0.0");
    ("info", JObj [
      ("title", JStr "Serena API");
      ("description", JStr "API for code search and manipulation");
      ("version", JStr "1.0.0")]);
    ("security", JArr [JObj [("none", JArr [])]]);
    ("components", JObj [
      ("securitySchemes", JObj [
        ("none", JObj [
          ("type", JStr "http");
          ("scheme", JStr "bearer");
          ("description",
           JStr "No authentication required. This API is open.")])])]);
    ("paths", JObj paths)]).

(** ** Slices and ranges *)

(** [s[:n]] *)
Fixpoint str_take (n : nat) (s : string) : string :=
  match n, s with
  | S n', String c rest => String c (str_take n' rest)
  | _, _ => EmptyString
  end.

(** [s[n:]] *)
Fixpoint str_drop (n : nat) (s : string) : string :=
  match n, s with
  | S n', String _ rest => str_drop n' rest
  | _, _ => s
  end.

(** [s[i:j]] for [0 <= i <= j]; like Python's, the slice stops at the end
    of [s]. *)
Definition slice (s : string) (i j : nat) : string :=
  str_take (j - i) (str_drop i s).

(** [range(0, stop, step)] for a positive [step]. *)
Definition py_range (stop step : nat) : list nat :=
  (λ j, j * step)%nat <$> seq 0 ((stop + step - 1) / step).

(** [sub in s] on strings. *)
Definition str_contains (sub s : string) : bool :=
  bool_decide (is_Some (String.index 0 sub s)).

(** ** The documentation routes *)

(** What the chunked body does: a chunk is written, or the generator
    sleeps (in milliseconds). *)
Inductive chunk_event :=
| Send (chunk : string)
| Nap (milliseconds : Z).

(** What a documentation route returns. [PlainResponse] is Starlette's
    [Response]; a handler that returns a dict, like one that returns
    [JSONResponse(content=...)], answers with that document and status
    200. *)
Inductive reply :=
| PlainResponse (content : string) (status_code : Z) (media_type : string)
| JSONReply (content : json)
| StreamingReply (content : list chunk_event) (media_type : string)
    (headers : list (string * string)).

Section DocumentationRoutes.
(** [json.dumps(schema, indent=2)] and [str.encode]. *)
Variable json_dumps_indent_2 : json → string.
Variable encode : string → string.

(** Lines 295-307: the events of the chunked body, to its end. *)
Definition generate_chunked_response (schema_json : string)
  : list chunk_event :=
  let first_chunk := str_take 1000 schema_json in
  let remaining := str_drop 1000 schema_json in
  let chunk_size := 1000%nat in
  Send (encode first_chunk)
    :: flat_map
         (λ i, let chunk := slice remaining i (i + chunk_size) in
               [Send (encode chunk); Nap 10])
         (py_range (String.length remaining) chunk_size).

(** Lines 145-220; [accept] is [request.headers.get("accept")]. *)
Definition get_openapi_schema (accept : option string) : result reply :=
  let! schema := openapi_json_schema SERENA_FUNCTIONS in
  let accept_header := default EmptyString accept in
  if str_contains "text/" accept_header then
    Ok (PlainResponse (json_dumps_indent_2 schema) 200
          "text/plain; charset=utf-8")
  else Ok (JSONReply schema).

(** Lines 222-313. *)
Definition get_openapi_schema_text : result reply :=
  let! schema := openapi_txt_schema SERENA_FUNCTIONS in
  let schema_json := json_dumps_indent_2 schema in
  Ok (StreamingReply (generate_chunked_response schema_json)
        "text/plain; charset=utf-8"
        [("Transfer-Encoding", "chunked")]).

End DocumentationRoutes.

(** Lines 315-322. *)
Definition health_check (accept : option string) : reply :=
  let accept_header := default EmptyString accept in
  if str_contains "application/health" accept_header then
    PlainResponse EmptyString 204 "application/health+json"
  else JSONReply (JObj [("ok", JBool true)]).

(** ** What the further properties speak about *)

(** The chunks written by a chunked body, in order. *)
Definition sent (es : list chunk_event) : list string :=
  omap (λ e, match e with Send c => Some c | Nap _ => None end) es.

(** The pieces of a string put together again. *)
Definition str_concat (pieces : list string) : string :=
  fold_right String.append EmptyString pieces.

Definition response_status (r : response) : Z :=
  match r with
  | JSONResponse _ st _ => st
  | StreamingResponse _ st _ _ => st
  end.

(** The value of the last pair with key [k]. *)
Definition last_value (k : string) (pairs : list (string * string))
  : option string :=
  snd <$> last (filter (λ kv, kv.1 = k) pairs).

(** The keys of a JSON object. *)
Definition keys_of (v : json) : list string :=
  match v with
  | JObj members => members.*1
  | _ => []
  end.

(** The member reached from [v] by following the keys of [path], one
    object deeper at each key. *)
Fixpoint json_at (path : list string) (v : json) : option json :=
  match path with
  | [] => Some v
  | key :: rest =>
      match v with
      | JObj members =>
          match obj_get key members with
          | Some inner => json_at rest inner
          | None => None
          end
      | _ => None
      end
  end.

(** * Properties *)

(** ** Streaming classifier *)

Section ClassifierFacts.
Variable json_loads : string → result json.

Lemma classify_try_object body members :
  json_loads body = Ok (JObj members) →
  classify_try json_loads body =
    match obj_get "function_call" members with
    | Some fc => let! name := py_get fc "name" in Ok (eq_str name "search_code")
    | None => Ok false
    end.
Proof.
  intros Hb. unfold classify_try. rewrite Hb. simpl.
  destruct (obj_get "function_call" members) as [fc|] eqn:Hfc.
  - rewrite bool_decide_eq_true_2 by eauto. reflexivity.
  - rewrite bool_decide_eq_false_2 by (intros [? ?]; discriminate). reflexivity.
Qed.

Lemma eq_str_true v s : eq_str v s = true ↔ v = JStr s.
Proof.
  destruct v; simpl; try (split; [discriminate | intros; discriminate]).
  rewrite bool_decide_eq_true. split; [intros ->; reflexivity | intros [= ->]; reflexivity].
Qed.

(** A decoded value that is not a dict never classifies as streaming:
    the subscript [body_json["function_call"]] raises where [in] did not. *)
Lemma classify_try_not_object body v :
  json_loads body = Ok v →
  (∀ members, v ≠ JObj members) →
  classify_try json_loads body ≠ Ok true.
Proof.
  intros Hb Hv. unfold classify_try. rewrite Hb.
  destruct v; simpl; try discriminate.
  - destruct (bool_decide _); simpl; discriminate.
  - destruct (existsb _ _); simpl; discriminate.
  - exfalso. eapply Hv. reflexivity.
Qed.

End ClassifierFacts.

(** C1. A request is classified as streaming exactly when its body decodes
    to a JSON object whose [function_call] member is an object whose [name]
    member is the string [search_code]; every other body (one that does not
    decode, a document that is not an object, a missing or mis-shaped
    [function_call], another name) is classified as non-streaming. The
    classifier is a total function into [bool]: whatever is raised while
    inspecting the body is absorbed. *)
Theorem classifier_streaming_iff (json_loads : string → result json) (body : string) :
  (is_streaming json_loads body = true
     ↔ ∃ v, json_loads body = Ok v ∧ names_search_code v)
  ∧ (is_streaming json_loads body = false
     ↔ ¬ ∃ v, json_loads body = Ok v ∧ names_search_code v).
Proof.
  assert (Hiff : is_streaming json_loads body = true
     ↔ ∃ v, json_loads body = Ok v ∧ names_search_code v).
  { unfold is_streaming. split.
    - destruct (classify_try json_loads body) as [b|e] eqn:Hc; [|discriminate].
      intros ->.
      destruct (json_loads body) as [v|e] eqn:Hb.
      2:{ unfold classify_try in Hc. rewrite Hb in Hc. discriminate. }
      exists v. split; [reflexivity|].
      destruct v as [| | | | |arr|members];
        try (exfalso; eapply (classify_try_not_object json_loads body); eauto;
             intros; discriminate).
      rewrite (classify_try_object _ _ _ Hb) in Hc.
      destruct (obj_get "function_call" members) as [fc|] eqn:Hfc; [|discriminate].
      destruct fc as [| | | | | |fcm]; simpl in Hc; try discriminate.
      injection Hc as Hc. apply eq_str_true in Hc.
      destruct (obj_get "name" fcm) as [n|] eqn:Hn; simpl in Hc; [|discriminate].
      subst n. exists members, fcm. auto.
    - intros (v & Hb & members & fc & -> & Hfc & Hn).
      rewrite (classify_try_object _ _ _ Hb), Hfc. simpl. rewrite Hn.
      reflexivity. }
  split; [exact Hiff|].
  rewrite <- Hiff. destruct (is_streaming json_loads body); split; done.
Qed.

Example classify_search_code :
  is_streaming example_loads search_code_body = true.
Proof. reflexivity. Qed.

Example classify_other_name :
  is_streaming example_loads read_file_body = false.
Proof. reflexivity. Qed.

Example classify_not_json :
  is_streaming example_loads "search_code" = false.
Proof. reflexivity. Qed.

Example classify_array :
  is_streaming (λ _, Ok (JArr [JStr "function_call"])) "x" = false.
Proof. reflexivity. Qed.

Example classify_string :
  is_streaming (λ _, Ok (JStr "a function_call b")) "x" = false.
Proof. reflexivity. Qed.

Example classify_function_call_not_object :
  is_streaming (λ _, Ok (JObj [("function_call", JStr "search_code")])) "x" = false.
Proof. reflexivity. Qed.

Example classify_name_missing :
  is_streaming (λ _, Ok (JObj [("function_call", JObj [])])) "x" = false.
Proof. reflexivity. Qed.

(** ** Header sanitizer *)

Lemma dict_snoc (pairs : list (string * string)) k v :
  dict (pairs ++ [(k, v)]) = <[k := v]> (dict pairs).
Proof. unfold dict. rewrite fold_left_app. reflexivity. Qed.

(** Every key of [dict pairs] is the first component of one of the pairs. *)
Lemma dict_lookup_Some (pairs : list (string * string)) k v :
  dict pairs !! k = Some v → (k, v) ∈ pairs.
Proof.
  induction pairs as [|[k' v'] pairs IH] using rev_ind.
  - unfold dict. simpl. rewrite lookup_empty. discriminate.
  - rewrite dict_snoc. rewrite lookup_insert.
    destruct (decide (k' = k)) as [->|Hne].
    + intros [= ->]. apply elem_of_app. right. apply list_elem_of_singleton. reflexivity.
    + intros H. apply elem_of_app. left. auto.
Qed.

Lemma lower_fixed_authorization k :
  lower k = k → spells "authorization" k → k = "authorization".
Proof. unfold spells. intros Hk Hs. rewrite Hk in Hs. exact Hs. Qed.

Lemma outbound_headers_lookup (hdrs : list (string * string)) k :
  k ≠ "content-type" →
  outbound_headers hdrs !! k =
    if decide (k = "authorization" ∨ k = "Authorization") then None
    else dict hdrs !! k.
Proof.
  intros Hct. unfold outbound_headers.
  set (h := delete "Authorization" (delete "authorization" (dict hdrs))).
  assert (Hd : h !! k =
    if decide (k = "authorization" ∨ k = "Authorization") then None
    else dict hdrs !! k).
  { subst h. rewrite !lookup_delete. repeat case_decide; intuition congruence. }
  destruct (decide (is_Some (h !! "content-type"))); [exact Hd|].
  rewrite lookup_insert_ne by congruence. exact Hd.
Qed.

Lemma outbound_headers_content_type (hdrs : list (string * string)) :
  outbound_headers hdrs !! "content-type" =
    Some (default "application/json" (dict hdrs !! "content-type")).
Proof.
  unfold outbound_headers.
  set (h := delete "Authorization" (delete "authorization" (dict hdrs))).
  assert (Hd : h !! "content-type" = dict hdrs !! "content-type").
  { subst h. rewrite !lookup_delete_ne by discriminate. reflexivity. }
  destruct (decide (is_Some (h !! "content-type"))) as [Hc|Hc].
  - rewrite <- Hd. destruct Hc as [v ->]. reflexivity.
  - rewrite lookup_insert_eq. rewrite <- Hd.
    destruct (h !! "content-type"); [|reflexivity].
    exfalso. apply Hc. eauto.
Qed.

(** The entries of the outbound mapping, for any list of inbound pairs. *)
Lemma outbound_headers_entries (hdrs : list (string * string)) :
  outbound_headers hdrs !! "authorization" = None
  ∧ outbound_headers hdrs !! "Authorization" = None
  ∧ outbound_headers hdrs !! "content-type"
      = Some (default "application/json" (dict hdrs !! "content-type"))
  ∧ (∀ k, k ≠ "authorization" → k ≠ "Authorization" → k ≠ "content-type" →
       outbound_headers hdrs !! k = dict hdrs !! k)
  ∧ (Forall (λ kv, lower kv.1 = kv.1) hdrs →
       ∀ k, spells "authorization" k → outbound_headers hdrs !! k = None).
Proof.
  split; [|split; [|split; [|split]]].
  - rewrite outbound_headers_lookup by discriminate.
    rewrite decide_True by auto. reflexivity.
  - rewrite outbound_headers_lookup by discriminate.
    rewrite decide_True by auto. reflexivity.
  - apply outbound_headers_content_type.
  - intros k H1 H2 H3. rewrite outbound_headers_lookup by assumption.
    rewrite decide_False by intuition. reflexivity.
  - intros Hlow k Hk.
    assert (Hct : k ≠ "content-type") by (intros ->; discriminate Hk).
    rewrite outbound_headers_lookup by assumption.
    case_decide as Hd; [reflexivity|].
    destruct (dict hdrs !! k) as [v|] eqn:Hv; [|reflexivity].
    exfalso. apply Hd. left.
    apply dict_lookup_Some in Hv.
    rewrite Forall_forall in Hlow. specialize (Hlow _ Hv). simpl in Hlow.
    apply lower_fixed_authorization; assumption.
Qed.

Lemma lower_ascii_idemp c : lower_ascii (lower_ascii c) = lower_ascii c.
Proof. destruct c as [[] [] [] [] [] [] [] []]; reflexivity. Qed.

Lemma lower_idemp s : lower (lower s) = lower s.
Proof.
  induction s as [|c s IH]; [reflexivity|].
  simpl. rewrite lower_ascii_idemp, IH. reflexivity.
Qed.

(** The handler sees header names in lower case only. *)
Lemma request_headers_lower (req : request) :
  Forall (λ kv, lower kv.1 = kv.1) (request_headers req).
Proof.
  unfold request_headers. apply Forall_fmap, Forall_forall.
  intros line _. apply lower_idemp.
Qed.

(** C2. Whatever header lines the request has, the header mapping sent
    upstream has no key that spells [authorization], in any casing, and it
    has the key [content-type]: with the value the request gave for it, or
    [application/json] when the request gave none. The mapping is a total
    function of the header lines. *)
Theorem sanitizer_strips_authorization (req : request) :
  (∀ k, spells "authorization" k →
        outbound_headers (request_headers req) !! k = None)
  ∧ outbound_headers (request_headers req) !! "content-type"
    = Some (default "application/json"
              (dict (request_headers req) !! "content-type"))
  ∧ ((∀ line, line ∈ header_lines req → ¬ spells "content-type" line.1) →
     outbound_headers (request_headers req) !! "content-type"
     = Some "application/json").
Proof.
  split; [|split].
  - apply outbound_headers_entries, request_headers_lower.
  - apply outbound_headers_content_type.
  - intros Hnone. rewrite outbound_headers_content_type.
    destruct (dict (request_headers req) !! "content-type") as [v|] eqn:Hv;
      [|reflexivity].
    exfalso. apply dict_lookup_Some in Hv.
    unfold request_headers in Hv.
    apply list_elem_of_fmap in Hv as (line & Hline & Hin).
    injection Hline as Hname _.
    apply (Hnone line Hin). unfold spells. rewrite <- Hname. reflexivity.
Qed.

Lemma sanitizer_strips_authorization_witness :
  outbound_headers
    (request_headers
       {| header_lines := [("Authorization", "Bearer t"); ("Accept", "*/*")];
          request_body := Ok "{}" |})
    !! "authorization" = None.
Proof.
  apply (sanitizer_strips_authorization
           {| header_lines := [("Authorization", "Bearer t"); ("Accept", "*/*")];
              request_body := Ok "{}" |}).
  reflexivity.
Defined.

Example sanitize_mixed_case_request :
  outbound_headers
    (request_headers
       {| header_lines := [("AUTHORIZATION", "Basic c2VyZW5h");
                           ("Content-Type", "text/plain");
                           ("Accept", "*/*")];
          request_body := Ok "{}" |})
  = {[ "content-type" := "text/plain"; "accept" := "*/*" ]}.
Proof. apply map_eq. intros k. vm_compute. reflexivity. Qed.

(** ** Keepalive relay *)

Lemma drain_S n g :
  drain (S n) g = ((resume g).1 :: (drain n (resume g).2).1,
                   (drain n (resume g).2).2).
Proof.
  simpl. destruct (resume g) as [e g']. simpl.
  destruct (drain n g') as [es g'']. reflexivity.
Qed.

Lemma drain_add n m g :
  drain (n + m) g =
    (((drain n g).1 ++ (drain m (drain n g).2).1)%list,
     (drain m (drain n g).2).2).
Proof.
  revert g. induction n as [|n IH]; intros g.
  - simpl. destruct (drain m g). reflexivity.
  - rewrite Nat.add_succ_l, !drain_S, IH. reflexivity.
Qed.

Lemma drain_length n g : length (drain n g).1 = n.
Proof.
  revert g. induction n as [|n IH]; intros g; [reflexivity|].
  rewrite drain_S. simpl. rewrite IH. reflexivity.
Qed.

(** While upstream chunks remain, each event forwards the next one. *)
Lemma drain_forwarding (chunks rest : list string) i :
  drain (length chunks) (AsyncFor (chunks ++ rest) i) =
    (Yield FromUpstream <$> chunks, AsyncFor rest i).
Proof.
  induction chunks as [|c chunks IH]; [reflexivity|].
  cbn [length]. rewrite drain_S. simpl. rewrite IH. reflexivity.
Qed.

(** One round of the [while True] loop. *)
Lemma drain_round_exhausted i :
  drain 2 (AsyncFor [] i) = ([Yield KeepAlive newline; Sleep i], WhileYield i).
Proof. reflexivity. Qed.

Lemma drain_round i :
  drain 2 (WhileYield i) = ([Yield KeepAlive newline; Sleep i], WhileYield i).
Proof. reflexivity. Qed.

Lemma drain_rounds k :
  drain (2 * k) (WhileYield 10) = (keepalive_rounds k, WhileYield 10).
Proof.
  induction k as [|k IH]; [reflexivity|].
  replace (2 * S k)%nat with (2 + 2 * k)%nat by lia.
  rewrite drain_add, drain_round. cbn [fst snd]. rewrite IH. reflexivity.
Qed.

Lemma drain_rounds_exhausted k :
  (drain (2 * k) (AsyncFor [] 10)).1 = keepalive_rounds k.
Proof.
  destruct k as [|k]; [reflexivity|].
  replace (2 * S k)%nat with (2 + 2 * k)%nat by lia.
  rewrite drain_add, drain_round_exhausted. cbn [fst snd].
  rewrite drain_rounds. reflexivity.
Qed.

(** Once in the loop, the generator stays there. *)
Lemma keepalive_stable n g :
  phase_of g = KEEPALIVE → phase_of (drain n g).2 = KEEPALIVE.
Proof.
  revert g. induction n as [|n IH]; intros g Hg; [exact Hg|].
  rewrite drain_S. simpl. apply IH.
  destruct g as [cs i|i|i]; [discriminate|reflexivity|reflexivity].
Qed.

Lemma drain_within (chunks : list string) i n :
  (n ≤ length chunks)%nat →
  drain n (AsyncFor chunks i) =
    (Yield FromUpstream <$> take n chunks, AsyncFor (drop n chunks) i).
Proof.
  intros Hn.
  rewrite <- (take_drop n chunks) at 1.
  rewrite <- (length_take_le chunks n) at 1 by exact Hn.
  apply drain_forwarding.
Qed.

(** C4. Run on an upstream that produces [chunks] and is then exhausted,
    the generator never stops producing events ([n] events can be drawn for
    every [n], each a prefix of the longer runs). Its first [length chunks]
    events forward the upstream chunks unchanged and in order; what follows
    is the keepalive loop, round after round: one newline, then a sleep of
    10 seconds. The generator is in the forwarding phase up to the event
    that finds upstream exhausted and in the keepalive phase ever after, so
    no filler precedes exhaustion and no upstream chunk follows a filler. *)
Theorem keepalive_relay_trace (chunks : list string) :
  let g := stream_with_keepalive chunks in
  (∀ n, length (drain n g).1 = n)
  ∧ (∀ n m, (drain n g).1 = take n (drain (n + m) g).1)
  ∧ (∀ n, (n ≤ length chunks)%nat →
       (drain n g).1 = Yield FromUpstream <$> take n chunks)
  ∧ (∀ k, (drain (length chunks + 2 * k) g).1 =
            ((Yield FromUpstream <$> chunks) ++ keepalive_rounds k)%list)
  ∧ (∀ n, phase_of (drain n g).2 = FORWARDING ↔ (n ≤ length chunks)%nat).
Proof.
  intros g. subst g. unfold stream_with_keepalive, KEEP_ALIVE_INTERVAL.
  split; [|split; [|split; [|split]]].
  - intros n. apply drain_length.
  - intros n m. rewrite drain_add. cbn [fst].
    rewrite take_app_length'; [reflexivity | symmetry; apply drain_length].
  - intros n Hn. rewrite drain_within by exact Hn. reflexivity.
  - intros k. rewrite drain_add.
    rewrite (drain_within chunks 10 (length chunks)) by lia.
    cbn [fst snd]. rewrite firstn_all, drop_all.
    rewrite drain_rounds_exhausted. reflexivity.
  - intros n. split.
    + intros Hph. destruct (decide (n ≤ length chunks)%nat) as [|Hgt]; [assumption|].
      exfalso.
      replace n with (S (length chunks) + (n - S (length chunks)))%nat in Hph by lia.
      rewrite drain_add in Hph. cbn [snd] in Hph.
      rewrite keepalive_stable in Hph; [discriminate|].
      replace (S (length chunks)) with (length chunks + 1)%nat by lia.
      rewrite drain_add.
      rewrite (drain_within chunks 10 (length chunks)) by lia.
      cbn [snd]. rewrite drop_all. reflexivity.
    + intros Hn. rewrite drain_within by exact Hn. reflexivity.
Qed.

Example keepalive_two_chunks :
  (drain 7 (stream_with_keepalive ["ab"; "c"])).1 =
    [Yield FromUpstream "ab"; Yield FromUpstream "c";
     Yield KeepAlive newline; Sleep 10;
     Yield KeepAlive newline; Sleep 10;
     Yield KeepAlive newline].
Proof. reflexivity. Qed.

Example keepalive_empty_upstream :
  (drain 3 (stream_with_keepalive [])).1 =
    [Yield KeepAlive newline; Sleep 10; Yield KeepAlive newline].
Proof. reflexivity. Qed.

(** ** The handler, case by case *)

Section HandlerFacts.
Variable json_loads : string → result json.
Variable U : Type.
Variable upstream : post_call → U → result upstream_response * U.
Variable json_response_raises : json → gmap string string → option exn.
Variable environ : gmap string string.
Variable endpoint : string.
Variable req : request.
Variable u : U.

Let call (body : string) : post_call :=
  issued_call json_loads environ endpoint body (request_headers req).

Let run := proxy_try json_loads upstream json_response_raises environ
             endpoint req u.

(** The body could not be read: nothing is sent upstream. *)
Lemma proxy_try_body_raises e :
  request_body req = Raise e → run = (Raise e, u, []).
Proof.
  intros Hb. subst run. unfold proxy_try, mbind, lift. rewrite Hb.
  reflexivity.
Qed.

(** A streaming request: the call raises before anything is sent, and the
    client is closed on the way out. *)
Lemma proxy_try_streaming body :
  request_body req = Ok body →
  is_streaming json_loads body = true →
  run = (Raise stream_keyword_error, u,
         [ClientOpen 300; Post (call body); ClientClose]).
Proof.
  intros Hb Hs. subst call run. unfold issued_call.
  unfold proxy_try, mbind, lift, async_with_client, client_post.
  rewrite Hb, Hs. reflexivity.
Qed.

(** The upstream call of a buffered request raises. *)
Lemma proxy_try_post_raises body e u' :
  request_body req = Ok body →
  is_streaming json_loads body = false →
  upstream (call body) u = (Raise e, u') →
  run = (Raise e, u', [ClientOpen 300; Post (call body); ClientClose]).
Proof.
  intros Hb Hs Hup. subst call run. unfold issued_call in *.
  unfold proxy_try, mbind, lift, async_with_client, client_post.
  rewrite Hb. rewrite Hs in *. simpl in *. rewrite Hup. reflexivity.
Qed.

(** Upstream answers a buffered request: the response is built, or
    building it raises. *)
Lemma proxy_try_buffered body resp u' :
  request_body req = Ok body →
  is_streaming json_loads body = false →
  upstream (call body) u = (Ok resp, u') →
  run =
    (match json_response_raises (buffered_content json_loads resp)
             (with_cors (response_headers_of resp)) with
     | Some e => Raise e
     | None =>
         Ok (JSONResponse (buffered_content json_loads resp)
               (status_code resp) (with_cors (response_headers_of resp)))
     end,
     u', [ClientOpen 300; Post (call body); ClientClose]).
Proof.
  intros Hb Hs Hup. subst call run. unfold issued_call in *.
  unfold proxy_try, mbind, lift, async_with_client, client_post,
    new_JSONResponse, buffered_content.
  rewrite Hb. rewrite Hs in *. simpl in *. rewrite Hup. simpl.
  destruct (json_response_raises _ _); reflexivity.
Qed.

(** Whatever happens, the events of a request whose body was read are the
    same three. *)
Lemma proxy_try_events :
  run.2 =
    match request_body req with
    | Ok body => [ClientOpen 300; Post (call body); ClientClose]
    | Raise _ => []
    end.
Proof.
  destruct (request_body req) as [body|e] eqn:Hb.
  - destruct (is_streaming json_loads body) eqn:Hs.
    + erewrite proxy_try_streaming by eassumption. reflexivity.
    + destruct (upstream (call body) u) as [[resp|e] u'] eqn:Hup.
      * erewrite proxy_try_buffered by eassumption. reflexivity.
      * erewrite proxy_try_post_raises by eassumption. reflexivity.
  - erewrite proxy_try_body_raises by eassumption. reflexivity.
Qed.

(** The handler issues at most one call, and which one depends on the
    request and the configuration only. *)
Lemma proxy_try_posts :
  posts run.2 =
    match request_body req with
    | Ok body => [call body]
    | Raise _ => []
    end.
Proof.
  rewrite proxy_try_events. destruct (request_body req); reflexivity.
Qed.

Lemma proxy_events :
  (proxy json_loads upstream json_response_raises environ endpoint req u).2
  = run.2.
Proof.
  subst run. unfold proxy.
  destruct (proxy_try json_loads upstream json_response_raises environ
              endpoint req u) as [[[r|e] u'] es];
    reflexivity.
Qed.

Lemma proxy_of_ok r :
  run.1.1 = Ok r →
  (proxy json_loads upstream json_response_raises environ endpoint req u).1.1
  = r.
Proof.
  subst run. unfold proxy.
  destruct (proxy_try json_loads upstream json_response_raises environ
              endpoint req u) as [[[r'|e] u'] es];
    simpl; congruence.
Qed.

Lemma proxy_of_raise e :
  run.1.1 = Raise e →
  (proxy json_loads upstream json_response_raises environ endpoint req u).1.1
  = on_exception e.
Proof.
  subst run. unfold proxy.
  destruct (proxy_try json_loads upstream json_response_raises environ
              endpoint req u) as [[[r'|e'] u'] es];
    simpl; congruence.
Qed.

(** The response to a buffered request that upstream answers. *)
Lemma proxy_buffered body resp u' :
  request_body req = Ok body →
  is_streaming json_loads body = false →
  upstream (call body) u = (Ok resp, u') →
  (proxy json_loads upstream json_response_raises environ endpoint req u).1.1
  = match json_response_raises (buffered_content json_loads resp)
            (with_cors (response_headers_of resp)) with
    | Some e => on_exception e
    | None =>
        JSONResponse (buffered_content json_loads resp)
          (status_code resp) (with_cors (response_headers_of resp))
    end.
Proof.
  intros Hb Hs Hup.
  pose proof (proxy_try_buffered body resp u' Hb Hs Hup) as Hrun.
  destruct (json_response_raises _ _) as [e|].
  - apply proxy_of_raise. rewrite Hrun. reflexivity.
  - apply proxy_of_ok. rewrite Hrun. reflexivity.
Qed.

(** Every way in which the body of the [try] can end. *)
Lemma proxy_try_outcome :
  (∃ e, run.1.1 = Raise e)
  ∨ (∃ body resp u',
       request_body req = Ok body
       ∧ is_streaming json_loads body = false
       ∧ upstream (call body) u = (Ok resp, u')
       ∧ json_response_raises (buffered_content json_loads resp)
           (with_cors (response_headers_of resp)) = None
       ∧ run.1.1 = Ok (JSONResponse (buffered_content json_loads resp)
                         (status_code resp)
                         (with_cors (response_headers_of resp)))).
Proof.
  destruct (request_body req) as [body|e] eqn:Hb.
  - destruct (is_streaming json_loads body) eqn:Hs.
    + left. erewrite proxy_try_streaming by eassumption. eauto.
    + destruct (upstream (call body) u) as [[resp|e] u'] eqn:Hup.
      * pose proof (proxy_try_buffered body resp u' Hb Hs Hup) as Hrun.
        destruct (json_response_raises (buffered_content json_loads resp)
                    (with_cors (response_headers_of resp))) as [e|] eqn:Hr.
        -- left. rewrite Hrun. eauto.
        -- right. exists body, resp, u'. rewrite Hrun. auto.
      * left. erewrite proxy_try_post_raises by eassumption. eauto.
  - left. erewrite proxy_try_body_raises by eassumption. eauto.
Qed.

End HandlerFacts.

Lemma with_cors_lookup (h : Headers) :
  with_cors h !! ACAO = Some "*"
  ∧ with_cors h !! ACAC = Some "false"
  ∧ ∀ k, k ≠ ACAO → k ≠ ACAC → with_cors h !! k = dict (items h) !! k.
Proof.
  unfold with_cors. split; [|split].
  - rewrite lookup_insert_ne by discriminate. apply lookup_insert_eq.
  - apply lookup_insert_eq.
  - intros k H1 H2. rewrite !lookup_insert_ne by congruence. reflexivity.
Qed.

Lemma on_exception_is_failure e : is_failure_response (on_exception e).
Proof.
  destruct e as [msg|msg]; eexists _, _; (split; [reflexivity|]);
    split; reflexivity.
Qed.

(** ** Failure responses *)

(** C3. If the upstream call raises, be it [httpx.RequestError] or any
    other exception, or if anything else in the handler's [try] raises, the
    handler returns the failure response: status 500, JSON body
    [{"error": description}], both CORS headers. The handler is a total
    function into [response]: nothing raised inside it reaches its caller. *)
Theorem failures_become_500
  (json_loads : string → result json) (U : Type)
  (upstream : post_call → U → result upstream_response * U)
  (json_response_raises : json → gmap string string → option exn)
  (environ : gmap string string) (endpoint : string) (req : request) (u : U) :
  (∀ body e u',
     request_body req = Ok body →
     upstream (issued_call json_loads environ endpoint body
                 (request_headers req)) u = (Raise e, u') →
     is_failure_response
       (proxy json_loads upstream json_response_raises environ endpoint
          req u).1.1)
  ∧ (∀ e,
       (proxy_try json_loads upstream json_response_raises environ endpoint
          req u).1.1 = Raise e →
       is_failure_response
         (proxy json_loads upstream json_response_raises environ endpoint
            req u).1.1).
Proof.
  assert (Hraise : ∀ e,
    (proxy_try json_loads upstream json_response_raises environ endpoint
       req u).1.1 = Raise e →
    is_failure_response
      (proxy json_loads upstream json_response_raises environ endpoint
         req u).1.1).
  { intros e He. rewrite (proxy_of_raise _ _ _ _ _ _ _ _ _ He).
    apply on_exception_is_failure. }
  split; [|exact Hraise].
  intros body e u' Hb Hup.
  destruct (is_streaming json_loads body) eqn:Hs.
  - apply (Hraise stream_keyword_error).
    erewrite proxy_try_streaming by eassumption. reflexivity.
  - apply (Hraise e).
    erewrite proxy_try_post_raises by eassumption. reflexivity.
Qed.

Lemma failures_become_500_witness :
  is_failure_response
    (proxy example_loads refuses starlette_raises ∅ "find_symbol"
       (post_of read_file_body) tt).1.1.
Proof.
  eapply (failures_become_500 example_loads unit refuses starlette_raises ∅
            "find_symbol" (post_of read_file_body) tt); reflexivity.
Defined.

Example refused_connection :
  (proxy example_loads refuses starlette_raises ∅ "find_symbol"
     (post_of read_file_body) tt).1.1
  = JSONResponse
      (JObj [("error",
              JStr "Error forwarding request: All connection attempts failed")])
      500
      (dict [(ACAO, "*"); (ACAC, "false")]).
Proof. reflexivity. Qed.

Example unreadable_body :
  (proxy example_loads refuses starlette_raises ∅ "find_symbol"
     {| header_lines := [];
        request_body := Raise (OtherException "connection lost") |} tt).1.1
  = JSONResponse
      (JObj [("error", JStr "Unexpected error: connection lost")])
      500
      (dict [(ACAO, "*"); (ACAC, "false")]).
Proof. reflexivity. Qed.

(** An upstream body [1e999] decodes to infinity, which [JSONResponse]
    refuses: the relay answers 500. *)
Example infinity_not_relayed :
  (proxy (λ _, Ok (JFloat (S754_infinity false))) (answers "1e999" [])
     starlette_raises ∅ "find_symbol" (post_of read_file_body) tt).1.1
  = JSONResponse
      (JObj [("error",
              JStr ("Unexpected error: "
                    ++ "Out of range float values are not JSON compliant"))])
      500
      (dict [(ACAO, "*"); (ACAC, "false")]).
Proof. reflexivity. Qed.

(** ** Buffered responses *)

(** C5, as amended. A successful answer to a non-streaming request, from
    which the relay can build its response, is relayed as a JSON response
    with the upstream's status code and the [Access-Control-Allow-Origin: *]
    header. Its body is the decoded upstream body when that decodes to a
    value Python counts as true, the empty object when it decodes to a
    value Python counts as false, and [{"raw_response": text}] when it does
    not decode. *)
Theorem buffered_response_spec
  (json_loads : string → result json) (U : Type)
  (upstream : post_call → U → result upstream_response * U)
  (json_response_raises : json → gmap string string → option exn)
  (environ : gmap string string) (endpoint body : string) (req : request)
  (u u' : U) (resp : upstream_response) :
  request_body req = Ok body →
  is_streaming json_loads body = false →
  upstream (issued_call json_loads environ endpoint body
              (request_headers req)) u = (Ok resp, u') →
  json_response_raises (buffered_content json_loads resp)
    (with_cors (response_headers_of resp)) = None →
  ∃ content h,
    (proxy json_loads upstream json_response_raises environ endpoint
       req u).1.1
      = JSONResponse content (status_code resp) h
    ∧ h !! ACAO = Some "*"
    ∧ (∀ v, json_loads (json_content resp) = Ok v →
            content = if truthy v then v else JObj [])
    ∧ (∀ e, json_loads (json_content resp) = Raise e →
            content = JObj [("raw_response", JStr (text resp))]).
Proof.
  intros Hb Hs Hup Hbuilt.
  exists (buffered_content json_loads resp),
         (with_cors (response_headers_of resp)).
  split; [|split; [|split]].
  - erewrite proxy_buffered by eassumption. rewrite Hbuilt. reflexivity.
  - apply with_cors_lookup.
  - intros v Hv. unfold buffered_content. rewrite Hv. reflexivity.
  - intros e He. unfold buffered_content. rewrite He. reflexivity.
Qed.

Lemma buffered_response_spec_witness :
  ∃ content h,
    (proxy example_loads (answers result_1_body []) starlette_raises ∅
       "find_symbol" (post_of read_file_body) tt).1.1
      = JSONResponse content 200 h
    ∧ h !! ACAO = Some "*"
    ∧ (∀ v, example_loads result_1_body = Ok v →
            content = if truthy v then v else JObj [])
    ∧ (∀ e, example_loads result_1_body = Raise e →
            content = JObj [("raw_response", JStr result_1_body)]).
Proof.
  apply (buffered_response_spec example_loads unit (answers result_1_body [])
           starlette_raises ∅ "find_symbol" read_file_body
           (post_of read_file_body) tt tt
           {| status_code := 200; response_headers_of := no_headers;
              json_content := result_1_body; text := result_1_body;
              aiter_bytes := [] |}); reflexivity.
Defined.

(** C5, as stated, fails: an upstream body [[]] decodes to the empty list
    and is relayed as [{}]. *)
Lemma empty_list_not_relayed_verbatim : ¬ relays_decoded_value_verbatim.
Proof.
  intros H.
  destruct (H example_loads unit (answers "[]" []) starlette_raises ∅
              "find_symbol" read_file_body (post_of read_file_body) tt tt
              {| status_code := 200; response_headers_of := no_headers;
                 json_content := "[]"; text := "[]"; aiter_bytes := [] |}
              (JArr []))
    as (h & Hr & _); try reflexivity.
  vm_compute in Hr. discriminate Hr.
Qed.

Example relay_result_1 :
  (proxy example_loads (answers result_1_body []) starlette_raises ∅
     "find_symbol" (post_of read_file_body) tt).1.1
  = JSONResponse (JObj [("result", JInt 1)]) 200
      (dict [(ACAO, "*"); (ACAC, "false")]).
Proof. reflexivity. Qed.

Example relay_plain_text :
  (proxy example_loads (answers "plain text" []) starlette_raises ∅
     "find_symbol" (post_of read_file_body) tt).1.1
  = JSONResponse (JObj [("raw_response", JStr "plain text")]) 200
      (dict [(ACAO, "*"); (ACAC, "false")]).
Proof. reflexivity. Qed.

(** C9, as amended. The values Python counts as false are, among decoded
    documents, [{}], [[]], [0], [false], [null] and the empty string; when
    the body of a successful answer to a non-streaming request decodes to
    such a value and the relay can build its response, the relayed body is
    [{}]. *)
Theorem falsy_body_relayed_as_empty_object
  (json_loads : string → result json) (U : Type)
  (upstream : post_call → U → result upstream_response * U)
  (json_response_raises : json → gmap string string → option exn)
  (environ : gmap string string) (endpoint body : string) (req : request)
  (u u' : U) (resp : upstream_response) (v : json) :
  Forall (λ x, truthy x = false)
    [JObj []; JArr []; JInt 0; JBool false; JNull; JStr EmptyString]
  ∧ (request_body req = Ok body →
     is_streaming json_loads body = false →
     upstream (issued_call json_loads environ endpoint body
                 (request_headers req)) u = (Ok resp, u') →
     json_loads (json_content resp) = Ok v →
     truthy v = false →
     json_response_raises (JObj []) (with_cors (response_headers_of resp))
       = None →
     (proxy json_loads upstream json_response_raises environ endpoint
        req u).1.1
       = JSONResponse (JObj []) (status_code resp)
           (with_cors (response_headers_of resp))).
Proof.
  split; [repeat constructor|].
  intros Hb Hs Hup Hv Hf Hbuilt.
  assert (Hc : buffered_content json_loads resp = JObj []).
  { unfold buffered_content. rewrite Hv, Hf. reflexivity. }
  erewrite proxy_buffered by eassumption. rewrite Hc, Hbuilt. reflexivity.
Qed.

Example float_zero_is_falsy :
  truthy (JFloat (S754_zero true)) = false ∧ truthy (JFloat S754_nan) = true.
Proof. split; reflexivity. Qed.

Lemma falsy_body_relayed_as_empty_object_witness :
  (proxy example_loads (answers "0" []) starlette_raises ∅ "find_symbol"
     (post_of read_file_body) tt).1.1
  = JSONResponse (JObj []) 200 (with_cors no_headers).
Proof.
  apply (falsy_body_relayed_as_empty_object example_loads unit
           (answers "0" []) starlette_raises ∅ "find_symbol" read_file_body
           (post_of read_file_body) tt tt
           {| status_code := 200; response_headers_of := no_headers;
              json_content := "0"; text := "0"; aiter_bytes := [] |}
           (JInt 0)); reflexivity.
Defined.

(** C9, as stated, fails: upstream answers [{}] with a header whose value
    latin-1 cannot encode; building the response raises, and the relayed
    body is the error envelope. *)
Lemma falsy_body_with_unencodable_header :
  ¬ falsy_body_always_relayed_as_empty_object.
Proof.
  intros H.
  destruct (H example_loads unit (answers_with with_check_mark "{}" [])
              starlette_raises ∅ "find_symbol" read_file_body
              (post_of read_file_body) tt tt
              {| status_code := 200; response_headers_of := with_check_mark;
                 json_content := "{}"; text := "{}"; aiter_bytes := [] |}
              (JObj []))
    as (st & h & Hr); try reflexivity.
  vm_compute in Hr. discriminate Hr.
Qed.

(** ** CORS headers *)

Lemma merge_line_keys key value d x :
  x ∈ (merge_line key value d).*1 → x = key ∨ x ∈ d.*1.
Proof.
  induction d as [|[k v] d IH]; cbn [merge_line].
  - intros ->%list_elem_of_singleton. left. reflexivity.
  - destruct (decide (k = key)) as [->|Hne]; cbn.
    + intros H. right. exact H.
    + intros [->|H]%elem_of_cons.
      * right. left.
      * destruct (IH H) as [->|H']; [left; reflexivity|right; right; exact H'].
Qed.

Lemma merge_line_NoDup key value d :
  NoDup d.*1 → NoDup (merge_line key value d).*1.
Proof.
  induction d as [|[k v] d IH]; cbn [merge_line].
  - intros _. cbn. apply NoDup_singleton.
  - cbn. intros [Hk Hd]%NoDup_cons.
    destruct (decide (k = key)) as [->|Hne]; cbn.
    + apply NoDup_cons. auto.
    + apply NoDup_cons. split; [|auto].
      intros [->|H]%merge_line_keys; [congruence|contradiction].
Qed.

Lemma last_value_cons k k0 v0 (l : list (string * string)) :
  last_value k ((k0, v0) :: l)
  = match last_value k l with
    | Some v => Some v
    | None => if decide (k0 = k) then Some v0 else None
    end.
Proof.
  unfold last_value. destruct (decide (k0 = k)) as [->|Hne].
  - rewrite filter_cons_True by reflexivity. rewrite last_cons.
    destruct (last _); reflexivity.
  - rewrite filter_cons_False by exact Hne. destruct (last _); reflexivity.
Qed.

Lemma last_value_absent k (l : list (string * string)) :
  k ∉ l.*1 → last_value k l = None.
Proof.
  induction l as [|[k0 v0] l IH]; [reflexivity|].
  cbn. intros H. rewrite last_value_cons, IH.
  - rewrite decide_False; [reflexivity|]. intros ->. apply H. left.
  - intros H'. apply H. right. exact H'.
Qed.

Lemma last_value_merge_line k key value d :
  NoDup d.*1 →
  last_value k (merge_line key value d)
  = if decide (key = k) then
      Some (match last_value key d with
            | Some v => v ++ ", " ++ value
            | None => value
            end)
    else last_value k d.
Proof.
  induction d as [|[k0 v0] d IH]; cbn [merge_line].
  - intros _. rewrite last_value_cons. cbn.
    destruct (decide (key = k)); reflexivity.
  - cbn. intros [Hk Hd]%NoDup_cons.
    destruct (decide (k0 = key)) as [->|Hne];
      destruct (decide (key = k)) as [->|Hne'].
    + rewrite !last_value_cons, (last_value_absent k d) by exact Hk.
      rewrite !decide_True by reflexivity. reflexivity.
    + rewrite !last_value_cons. rewrite !decide_False by exact Hne'.
      reflexivity.
    + rewrite !last_value_cons, (IH Hd).
      rewrite decide_False by exact Hne.
      destruct (last_value k d); reflexivity.
    + rewrite !last_value_cons, (IH Hd). reflexivity.
Qed.

Lemma dict_last_value (pairs : list (string * string)) k :
  dict pairs !! k = last_value k pairs.
Proof.
  unfold last_value.
  induction pairs as [|[k' v'] pairs IH] using rev_ind.
  - unfold dict. simpl. apply lookup_empty.
  - rewrite dict_snoc, filter_app, lookup_insert.
    destruct (decide (k' = k)) as [->|Hne].
    + rewrite filter_cons_True by reflexivity.
      rewrite filter_nil, last_snoc. reflexivity.
    + rewrite filter_cons_False by exact Hne.
      rewrite filter_nil, app_nil_r. exact IH.
Qed.

Lemma header_value_snoc k ls line :
  header_value k (ls ++ [line])
  = if decide (lower line.1 = k) then
      Some (match header_value k ls with
            | Some v => v ++ ", " ++ line.2
            | None => line.2
            end)
    else header_value k ls.
Proof. unfold header_value. rewrite fold_left_app. reflexivity. Qed.

(** The dict that [items] builds has one entry per name, holding the
    joined values of the lines of that name. *)
Lemma items_fold (ls : list (string * string)) :
  let d := fold_left (λ d line, merge_line (lower line.1) line.2 d) ls [] in
  NoDup d.*1 ∧ ∀ k, last_value k d = header_value k ls.
Proof.
  induction ls as [|line ls [Hnd Hget]] using rev_ind.
  - split; [apply NoDup_nil_2 | reflexivity].
  - cbn zeta in *. rewrite fold_left_app. cbn [fold_left].
    split; [apply merge_line_NoDup, Hnd|].
    intros k. rewrite last_value_merge_line by exact Hnd.
    rewrite header_value_snoc, !Hget.
    destruct (decide (lower line.1 = k)) as [->|Hne]; reflexivity.
Qed.

Lemma dict_items (h : Headers) k :
  dict (items h) !! k = header_value k (lines h).
Proof. rewrite dict_last_value. apply (items_fold (lines h)). Qed.

Lemma header_value_Some k ls v :
  header_value k ls = Some v → ∃ line, line ∈ ls ∧ lower line.1 = k.
Proof.
  revert v. induction ls as [|line ls IH] using rev_ind; intros v.
  - discriminate.
  - rewrite header_value_snoc.
    destruct (decide (lower line.1 = k)) as [Hk|Hne].
    + intros _. exists line. split; [|exact Hk].
      apply elem_of_app. right. left.
    + intros H. destruct (IH _ H) as (l & Hin & Hl).
      exists l. split; [|exact Hl]. apply elem_of_app. left. exact Hin.
Qed.

Lemma header_value_present line ls :
  line ∈ ls → is_Some (header_value (lower line.1) ls).
Proof.
  induction ls as [|line' ls IH] using rev_ind.
  - intros []%elem_of_nil.
  - rewrite header_value_snoc.
    destruct (decide (lower line'.1 = lower line.1)) as [Hk|Hne]; [eauto|].
    intros [H|H]%elem_of_app; [exact (IH H)|].
    apply list_elem_of_singleton in H. subst. congruence.
Qed.

(** httpx gives no name that is not in lower case. *)
Lemma header_value_not_lower k ls : lower k ≠ k → header_value k ls = None.
Proof.
  intros Hk. destruct (header_value k ls) as [v|] eqn:Hv; [|reflexivity].
  apply header_value_Some in Hv as (line & _ & <-).
  exfalso. apply Hk, lower_idemp.
Qed.

Lemma with_cors_entries (h : Headers) k :
  with_cors h !! k
  = if decide (k = ACAO) then Some "*"
    else if decide (k = ACAC) then Some "false"
    else header_value k (lines h).
Proof.
  destruct (with_cors_lookup h) as (Ho & Hc & Hother).
  destruct (decide (k = ACAO)) as [->|H1]; [exact Ho|].
  destruct (decide (k = ACAC)) as [->|H2]; [exact Hc|].
  rewrite Hother by assumption. apply dict_items.
Qed.

(** C8. Upstream answers a non-streaming request with a header line named
    [Access-Control-Allow-Origin] or [Access-Control-Allow-Credentials], in
    whatever casing. The relayed response has the two forced entries, and
    beside them an entry under the lower-case name, which holds what
    upstream sent: the forced value does not replace it. *)
Theorem upstream_cors_header_survives
  (json_loads : string → result json) (U : Type)
  (upstream : post_call → U → result upstream_response * U)
  (json_response_raises : json → gmap string string → option exn)
  (environ : gmap string string) (endpoint body : string) (req : request)
  (u u' : U) (resp : upstream_response) (name value : string) :
  request_body req = Ok body →
  is_streaming json_loads body = false →
  upstream (issued_call json_loads environ endpoint body
              (request_headers req)) u = (Ok resp, u') →
  json_response_raises (buffered_content json_loads resp)
    (with_cors (response_headers_of resp)) = None →
  (name, value) ∈ lines (response_headers_of resp) →
  spells ACAO name ∨ spells ACAC name →
  let h := response_headers
             (proxy json_loads upstream json_response_raises environ endpoint
                req u).1.1 in
  h !! ACAO = Some "*"
  ∧ h !! ACAC = Some "false"
  ∧ lower name ≠ ACAO
  ∧ lower name ≠ ACAC
  ∧ is_Some (h !! lower name)
  ∧ h !! lower name
    = header_value (lower name) (lines (response_headers_of resp)).
Proof.
  intros Hb Hs Hup Hbuilt Hin Hname h. subst h.
  erewrite proxy_buffered by eassumption. rewrite Hbuilt. cbn [response_headers].
  assert (H1 : lower name ≠ ACAO).
  { intros H. pose proof (lower_idemp name) as Hi. rewrite H in Hi.
    vm_compute in Hi. discriminate Hi. }
  assert (H2 : lower name ≠ ACAC).
  { intros H. pose proof (lower_idemp name) as Hi. rewrite H in Hi.
    vm_compute in Hi. discriminate Hi. }
  rewrite !with_cors_entries.
  rewrite (decide_False (P := lower name = ACAO)) by exact H1.
  rewrite (decide_False (P := lower name = ACAC)) by exact H2.
  repeat split; try assumption.
  apply (header_value_present (name, value)). exact Hin.
Qed.

Lemma upstream_cors_header_survives_witness :
  response_headers
    (proxy example_loads (answers_with own_origin "{}" []) starlette_raises ∅
       "find_symbol" (post_of read_file_body) tt).1.1
    !! lower "Access-Control-Allow-Origin"
  = header_value (lower "Access-Control-Allow-Origin") (lines own_origin).
Proof.
  apply (upstream_cors_header_survives example_loads unit
           (answers_with own_origin "{}" []) starlette_raises ∅ "find_symbol"
           read_file_body (post_of read_file_body) tt tt
           {| status_code := 200; response_headers_of := own_origin;
              json_content := "{}"; text := "{}"; aiter_bytes := [] |}
           "Access-Control-Allow-Origin" "https://example.org");
    first [reflexivity | left; reflexivity].
Defined.

Example two_origin_entries :
  (proxy example_loads (answers_with own_origin "{}" []) starlette_raises ∅
     "find_symbol" (post_of read_file_body) tt).1.1
  = JSONResponse (JObj []) 200
      {[ ACAO := "*"; ACAC := "false";
         "access-control-allow-origin" := "https://example.org" ]}.
Proof. vm_compute. reflexivity. Qed.

(** ** Routing *)

(** C6. Every call the handler issues carries the credentials
    [("serena", password)], the password being the configured
    [SERENA_PASSWORD], or [password123] when none is configured: they do
    not depend on the endpoint, the headers or the body of the request. *)
Theorem outbound_auth_fixed
  (json_loads : string → result json) (U : Type)
  (upstream : post_call → U → result upstream_response * U)
  (json_response_raises : json → gmap string string → option exn)
  (environ : gmap string string) (endpoint : string) (req : request) (u : U)
  (call : post_call) :
  call ∈ posts (proxy json_loads upstream json_response_raises environ
                  endpoint req u).2 →
  auth call
    = ("serena", default "password123" (environ !! "SERENA_PASSWORD")).
Proof.
  rewrite proxy_events, proxy_try_posts.
  destruct (request_body req) as [body|e].
  - intros ->%list_elem_of_singleton. reflexivity.
  - intros []%elem_of_nil.
Qed.

Lemma outbound_auth_fixed_witness :
  auth (issued_call example_loads {[ "SERENA_PASSWORD" := "s3cret" ]}
          "find_symbol" read_file_body [("authorization", "Basic Y2xpZW50")])
  = ("serena",
     default "password123"
       (({[ "SERENA_PASSWORD" := "s3cret" ]} : gmap string string)
          !! "SERENA_PASSWORD")).
Proof.
  apply (outbound_auth_fixed example_loads unit (answers "{}" [])
           starlette_raises
           {[ "SERENA_PASSWORD" := "s3cret" ]} "find_symbol"
           {| header_lines := [("Authorization", "Basic Y2xpZW50")];
              request_body := Ok read_file_body |} tt).
  vm_compute. left.
Defined.

(** C10. The calls the handler issues for a request are the same whatever
    the upstream service is and whatever state it is in: for a request
    whose body can be read, one call, whose URL, headers, credentials,
    timeout and streaming flag are functions of the configuration and the
    request alone. *)
Theorem routing_independent_of_state
  (json_loads : string → result json) (environ : gmap string string)
  (endpoint : string) (req : request)
  (U1 U2 : Type)
  (upstream1 : post_call → U1 → result upstream_response * U1)
  (upstream2 : post_call → U2 → result upstream_response * U2)
  (raises1 raises2 : json → gmap string string → option exn)
  (u1 : U1) (u2 : U2) :
  posts (proxy json_loads upstream1 raises1 environ endpoint req u1).2
    = posts (proxy json_loads upstream2 raises2 environ endpoint req u2).2
  ∧ (∀ body,
       request_body req = Ok body →
       posts (proxy json_loads upstream1 raises1 environ endpoint req u1).2
         = [PostCall (UPSTREAM_URL environ ++ "/" ++ endpoint)
              body
              (outbound_headers (request_headers req))
              ("serena", default "password123" (environ !! "SERENA_PASSWORD"))
              (if is_streaming json_loads body then 300 else 60)
              (is_streaming json_loads body)]).
Proof.
  rewrite !proxy_events, !proxy_try_posts. split; [reflexivity|].
  intros body ->. reflexivity.
Qed.

Lemma routing_independent_of_state_witness :
  posts (proxy example_loads refuses starlette_raises ∅ "find_symbol"
           (post_of read_file_body) tt).2
  = [PostCall "https://serena-mcp.fly.dev/find_symbol" read_file_body
       {[ "content-type" := "application/json" ]}
       ("serena", "password123") 60 false].
Proof.
  etransitivity;
    [apply (routing_independent_of_state example_loads ∅ "find_symbol"
              (post_of read_file_body) unit unit refuses (answers "{}" [])
              starlette_raises starlette_raises tt tt); reflexivity|].
  f_equal.
Defined.

(** ** The streaming branch *)

(** C7. For every request classified as streaming, the call
    [client.post(..., stream=True)] raises before anything is sent
    upstream: the handler answers with the failure response, and its
    client, opened for the call, is closed when the handler returns. No
    connection to upstream is held open and no body is streamed. *)
Theorem streaming_request_answered_500
  (json_loads : string → result json) (U : Type)
  (upstream : post_call → U → result upstream_response * U)
  (json_response_raises : json → gmap string string → option exn)
  (environ : gmap string string) (endpoint body : string) (req : request)
  (u : U) :
  request_body req = Ok body →
  is_streaming json_loads body = true →
  proxy json_loads upstream json_response_raises environ endpoint req u
  = (JSONResponse
       (JObj [("error",
               JStr ("Unexpected error: " ++ str_exn stream_keyword_error))])
       500
       (dict [(ACAO, "*"); (ACAC, "false")]),
     u,
     [ClientOpen 300;
      Post (issued_call json_loads environ endpoint body (request_headers req));
      ClientClose]).
Proof.
  intros Hb Hs. unfold proxy.
  erewrite proxy_try_streaming by eassumption. reflexivity.
Qed.

Lemma streaming_request_answered_500_witness :
  proxy example_loads (answers EmptyString ["a"; "b"]) starlette_raises ∅
    "search_code" (post_of search_code_body) tt
  = (JSONResponse
       (JObj [("error",
               JStr ("Unexpected error: " ++ str_exn stream_keyword_error))])
       500
       (dict [(ACAO, "*"); (ACAC, "false")]),
     tt,
     [ClientOpen 300;
      Post (issued_call example_loads ∅ "search_code" search_code_body
              (request_headers (post_of search_code_body)));
      ClientClose]).
Proof.
  apply (streaming_request_answered_500 example_loads unit
           (answers EmptyString ["a"; "b"]) starlette_raises ∅ "search_code"
           search_code_body (post_of search_code_body) tt);
    reflexivity.
Defined.

(** * Further properties *)

(** ** Slices *)

Lemma str_app_cons x (a b : string) : String x a ++ b = String x (a ++ b).
Proof. reflexivity. Qed.

Lemma str_app_assoc (a b c : string) : (a ++ b) ++ c = a ++ (b ++ c).
Proof.
  induction a as [|x a IH]; [reflexivity|].
  rewrite !str_app_cons, IH. reflexivity.
Qed.

Lemma str_app_nil_r (a : string) : a ++ EmptyString = a.
Proof.
  induction a as [|x a IH]; [reflexivity|].
  rewrite str_app_cons, IH. reflexivity.
Qed.

Lemma str_app_length (a b : string) :
  String.length (a ++ b) = (String.length a + String.length b)%nat.
Proof.
  induction a as [|x a IH]; [reflexivity|].
  rewrite str_app_cons. simpl. rewrite IH. reflexivity.
Qed.

Lemma str_take_drop n s : str_take n s ++ str_drop n s = s.
Proof.
  revert s. induction n as [|n IH]; intros [|c s]; simpl; try reflexivity.
  rewrite str_app_cons, IH. reflexivity.
Qed.

Lemma str_take_length n s :
  String.length (str_take n s) = (n `min` String.length s)%nat.
Proof.
  revert s. induction n as [|n IH]; intros [|c s]; simpl; try reflexivity.
  rewrite IH. reflexivity.
Qed.

Lemma str_drop_length n s :
  String.length (str_drop n s) = (String.length s - n)%nat.
Proof.
  revert s. induction n as [|n IH]; intros [|c s]; simpl; try reflexivity.
  apply IH.
Qed.

Lemma str_take_all n s : (String.length s ≤ n)%nat → str_take n s = s.
Proof.
  revert s. induction n as [|n IH]; intros [|c s]; simpl; try reflexivity.
  - lia.
  - intros H. rewrite IH by lia. reflexivity.
Qed.

Lemma str_drop_all n s : (String.length s ≤ n)%nat → str_drop n s = EmptyString.
Proof.
  revert s. induction n as [|n IH]; intros [|c s]; simpl; try reflexivity.
  - lia.
  - intros H. apply IH. lia.
Qed.

Lemma str_take_add n m s :
  str_take (n + m) s = str_take n s ++ str_take m (str_drop n s).
Proof.
  revert s. induction n as [|n IH]; intros s.
  - reflexivity.
  - destruct s as [|c s]; simpl.
    + destruct m; reflexivity.
    + rewrite IH, str_app_cons. reflexivity.
Qed.

Lemma slice_step s c j :
  slice s (j * c) (j * c + c) = str_take c (str_drop (j * c) s).
Proof. unfold slice. replace (j * c + c - j * c)%nat with c by lia. reflexivity. Qed.

Lemma str_concat_app (a b : list string) :
  str_concat (a ++ b) = str_concat a ++ str_concat b.
Proof.
  induction a as [|x a IH]; simpl; [reflexivity|].
  rewrite IH, str_app_assoc. reflexivity.
Qed.

(** The first [k] slices of width [c] make up the first [k * c]
    characters. *)
Lemma slices_concat s c k :
  str_concat ((λ j, slice s (j * c) (j * c + c)) <$> seq 0 k)
  = str_take (k * c) s.
Proof.
  induction k as [|k IH]; [reflexivity|].
  rewrite seq_S, fmap_app, str_concat_app, IH. simpl.
  rewrite str_app_nil_r, slice_step.
  replace (c + k * c)%nat with (k * c + c)%nat by lia.
  rewrite str_take_add. reflexivity.
Qed.

Lemma ceil_covers n c : (0 < c)%nat → (n ≤ (n + c - 1) / c * c)%nat.
Proof.
  intros Hc.
  pose proof (Nat.div_mod (n + c - 1) c ltac:(lia)) as Hdm.
  pose proof (Nat.mod_upper_bound (n + c - 1) c ltac:(lia)) as Hm.
  nia.
Qed.

Lemma ceil_tight n c j :
  (0 < c)%nat → (j < (n + c - 1) / c)%nat → (j * c < n)%nat.
Proof.
  intros Hc Hj.
  pose proof (Nat.div_mod (n + c - 1) c ltac:(lia)) as Hdm.
  pose proof (Nat.mod_upper_bound (n + c - 1) c ltac:(lia)) as Hm.
  nia.
Qed.

Lemma py_range_fmap {A} (f : nat → A) stop step :
  f <$> py_range stop step
  = (λ j, f (j * step)%nat) <$> seq 0 ((stop + step - 1) / step).
Proof. unfold py_range. rewrite <- list_fmap_compose. reflexivity. Qed.

Lemma flat_map_fmap {A B C} (f : A → B) (g : B → list C) (l : list A) :
  flat_map g (f <$> l) = flat_map (λ a, g (f a)) l.
Proof.
  induction l as [|a l IH]; [reflexivity|].
  rewrite fmap_cons. cbn [flat_map]. rewrite IH. reflexivity.
Qed.

(** ** The chunked schema body *)

Section ChunkedFacts.
Variable encode : string → string.

(** The slices the generator takes from the document, before encoding. *)
Let pieces (schema_json : string) : list string :=
  str_take 1000 schema_json
    :: ((λ i, slice (str_drop 1000 schema_json) i (i + 1000))
          <$> py_range (String.length (str_drop 1000 schema_json)) 1000).

Lemma sent_flat_map (f : nat → string) (l : list nat) :
  sent (flat_map (λ i, [Send (f i); Nap 10]) l) = f <$> l.
Proof.
  induction l as [|i l IH]; [reflexivity|].
  change (f i :: sent (flat_map (λ i, [Send (f i); Nap 10]) l) = f i :: (f <$> l)).
  rewrite IH. reflexivity.
Qed.

Lemma sent_generate schema_json :
  sent (generate_chunked_response encode schema_json)
  = encode <$> pieces schema_json.
Proof.
  unfold generate_chunked_response, pieces.
  rewrite fmap_cons, <- list_fmap_compose.
  rewrite <- (sent_flat_map
                (λ i, encode (slice (str_drop 1000 schema_json) i (i + 1000)))).
  reflexivity.
Qed.

Lemma pieces_concat schema_json : str_concat (pieces schema_json) = schema_json.
Proof.
  unfold pieces. rewrite py_range_fmap.
  change (str_take 1000 schema_json
            ++ str_concat
                 ((λ j, slice (str_drop 1000 schema_json) (j * 1000)
                          (j * 1000 + 1000))
                    <$> seq 0 ((String.length (str_drop 1000 schema_json)
                                + 1000 - 1) / 1000))
          = schema_json).
  rewrite (slices_concat (str_drop 1000 schema_json) 1000).
  rewrite (str_take_all _ (str_drop 1000 schema_json))
    by (apply ceil_covers; lia).
  apply str_take_drop.
Qed.

Lemma pieces_sizes schema_json :
  Forall (λ p, String.length p ≤ 1000)%nat (pieces schema_json)
  ∧ Forall (λ p, p ≠ EmptyString) (tail (pieces schema_json)).
Proof.
  unfold pieces. cbn [tail]. split.
  - constructor; [rewrite str_take_length; lia|].
    apply Forall_fmap, Forall_forall. intros i _.
    unfold compose, slice. rewrite str_take_length. lia.
  - rewrite py_range_fmap. apply Forall_fmap, Forall_forall.
    intros j Hj. unfold compose.
    apply elem_of_seq in Hj.
    pose proof (ceil_tight (String.length (str_drop 1000 schema_json)) 1000 j
                  ltac:(lia) ltac:(lia)) as Hlt.
    rewrite slice_step. intros Hempty.
    apply (f_equal String.length) in Hempty.
    rewrite str_take_length, !str_drop_length in Hempty.
    rewrite str_drop_length in Hlt.
    change (String.length EmptyString) with 0%nat in Hempty. lia.
Qed.

Lemma pieces_length schema_json :
  length (pieces schema_json)
  = S ((String.length schema_json - 1000 + 999) / 1000).
Proof.
  unfold pieces, py_range. cbn [length].
  rewrite !length_fmap, length_seq, str_drop_length.
  do 2 f_equal. lia.
Qed.

(** X1. The chunks of the [/openapi.txt] body are the encoded slices of the
    document: put together again in the order sent, the slices are the
    document, nothing lost, repeated or reordered. No slice is longer than
    1000 characters, and none after the first is empty. *)
Theorem chunked_body_round_trip (schema_json : string) :
  ∃ slices : list string,
    sent (generate_chunked_response encode schema_json) = encode <$> slices
    ∧ str_concat slices = schema_json
    ∧ Forall (λ p, String.length p ≤ 1000)%nat slices
    ∧ Forall (λ p, p ≠ EmptyString) (tail slices).
Proof.
  exists (pieces schema_json).
  split; [apply sent_generate|].
  split; [apply pieces_concat|].
  apply pieces_sizes.
Qed.

(** X2. The body sends its first chunk at once and sleeps 10 ms after each
    later chunk, never before one. It sends one chunk plus one more for
    every started 1000 characters beyond the first 1000; so a document of
    at most 1000 characters, the empty one included, is sent as a single
    chunk with no sleep. *)
Theorem chunked_body_shape (schema_json : string) :
  (∃ first rest,
     generate_chunked_response encode schema_json
       = Send first :: flat_map (λ c, [Send c; Nap 10]) rest
     ∧ length rest = ((String.length schema_json - 1000 + 999) / 1000)%nat)
  ∧ ((String.length schema_json ≤ 1000)%nat →
     generate_chunked_response encode schema_json
       = [Send (encode schema_json)]).
Proof.
  split.
  - exists (encode (str_take 1000 schema_json)),
           (encode <$> tail (pieces schema_json)).
    split.
    + unfold generate_chunked_response, pieces. cbn [tail]. f_equal.
      rewrite <- list_fmap_compose, flat_map_fmap. reflexivity.
    + rewrite length_fmap.
      pose proof (pieces_length schema_json) as Hl.
      destruct (pieces schema_json); cbn [length tail] in *; lia.
  - intros Hshort. unfold generate_chunked_response.
    rewrite str_take_all by exact Hshort.
    rewrite (str_drop_all 1000 schema_json) by exact Hshort.
    reflexivity.
Qed.

End ChunkedFacts.

Lemma chunked_body_shape_witness :
  generate_chunked_response (λ s, s) "{}" = [Send "{}"].
Proof.
  apply (chunked_body_shape (λ s, s) "{}"). simpl. lia.
Defined.

Example chunked_empty_document :
  generate_chunked_response (λ s, s) EmptyString = [Send EmptyString].
Proof. reflexivity. Qed.

(** ** Substring tests *)

Lemma str_prefix_nil s : String.prefix EmptyString s = true.
Proof. destruct s; reflexivity. Qed.

Lemma str_prefix_cons_nil a p : String.prefix (String a p) EmptyString = false.
Proof. reflexivity. Qed.

Lemma str_prefix_cons_cons a p b s :
  String.prefix (String a p) (String b s) = if ascii_dec a b then String.prefix p s else false.
Proof. reflexivity. Qed.

Lemma str_prefix_true_iff p s : String.prefix p s = true ↔ ∃ rest, s = p ++ rest.
Proof.
  revert s. induction p as [|a p IH]; intros s.
  - rewrite str_prefix_nil. split; [intros _; exists s; reflexivity | reflexivity].
  - destruct s as [|b s].
    + rewrite str_prefix_cons_nil. split; [discriminate|].
      intros [rest H]. rewrite str_app_cons in H. discriminate.
    + rewrite str_prefix_cons_cons. destruct (ascii_dec a b) as [->|Hne].
      * rewrite IH. split; intros [rest H]; exists rest.
        -- rewrite str_app_cons, H. reflexivity.
        -- rewrite str_app_cons in H. congruence.
      * split; [discriminate|]. intros [rest H].
        rewrite str_app_cons in H. congruence.
Qed.

Lemma index_nil sub :
  String.index 0 sub EmptyString
  = match sub with EmptyString => Some 0%nat | String _ _ => None end.
Proof. reflexivity. Qed.

Lemma index_cons sub b s :
  String.index 0 sub (String b s)
  = if String.prefix sub (String b s) then Some 0%nat
    else match String.index 0 sub s with
         | Some n => Some (S n)
         | None => None
         end.
Proof. reflexivity. Qed.

(** [sub in s] holds exactly when [sub] occurs in [s]. *)
Lemma str_contains_iff sub s :
  str_contains sub s = true ↔ ∃ before after, s = before ++ sub ++ after.
Proof.
  unfold str_contains. rewrite bool_decide_eq_true.
  induction s as [|b s IH].
  - rewrite index_nil. destruct sub as [|a sub].
    + split; [intros _; exists EmptyString, EmptyString; reflexivity | eauto].
    + split; [intros [? ?]; discriminate|].
      intros (before & after & H). destruct before as [|x before].
      * change (EmptyString = String a (sub ++ after)) in H. discriminate.
      * rewrite str_app_cons in H. discriminate.
  - rewrite index_cons.
    destruct (String.prefix sub (String b s)) eqn:Hp.
    + split; [intros _|eauto].
      apply str_prefix_true_iff in Hp as [rest Hrest].
      exists EmptyString, rest. exact Hrest.
    + split.
      * intros Hsome.
        destruct (String.index 0 sub s) as [n|] eqn:Hi;
          [|destruct Hsome; discriminate].
        destruct (proj1 IH ltac:(eauto)) as (before & after & ->).
        exists (String b before), after. rewrite str_app_cons. reflexivity.
      * intros (before & after & H). destruct before as [|x before].
        -- exfalso. assert (String.prefix sub (String b s) = true) as Hp';
             [|congruence].
           apply str_prefix_true_iff. exists after. exact H.
        -- rewrite str_app_cons in H. injection H as _ H.
           destruct (proj2 IH ltac:(eauto)) as [n Hn]. rewrite Hn. eauto.
Qed.

(** ** Health check *)

(** X3. The health check answers 204 with media type
    [application/health+json] and an empty body exactly when the request
    has an [accept] header in which [application/health] occurs, anywhere
    and beside whatever else; without such a header it answers
    [{"ok": true}]. *)
Theorem health_check_no_content_iff (accept : option string) :
  (health_check accept
     = PlainResponse EmptyString 204 "application/health+json"
   ↔ ∃ before after,
       accept = Some (before ++ "application/health" ++ after))
  ∧ (health_check accept = JSONReply (JObj [("ok", JBool true)])
     ↔ ¬ ∃ before after,
           accept = Some (before ++ "application/health" ++ after)).
Proof.
  assert (Hc : str_contains "application/health" (default EmptyString accept)
               = true
             ↔ ∃ before after,
                 accept = Some (before ++ "application/health" ++ after)).
  { rewrite str_contains_iff. destruct accept as [h|]; simpl.
    - split; intros (x & y & H); exists x, y; congruence.
    - split; intros (x & y & H); [|discriminate].
      destruct x; discriminate. }
  unfold health_check. rewrite <- Hc.
  destruct (str_contains "application/health" (default EmptyString accept));
    split; split; intros H; done.
Qed.

Example health_check_plain : health_check None = JSONReply (JObj [("ok", JBool true)]).
Proof. reflexivity. Qed.

Example health_check_among_others :
  health_check (Some "text/html, application/health+json;q=0.1")
  = PlainResponse EmptyString 204 "application/health+json".
Proof. reflexivity. Qed.

(** ** The schema routes *)

Lemma comprehension_keys key value d items :
  comprehension key value d = Ok items → items.*1 = key <$> d.*1.
Proof.
  revert items. induction d as [|[k v] d IH]; intros items.
  - intros [= <-]. reflexivity.
  - cbn [comprehension]. destruct (value k v) as [item|e]; [|discriminate].
    cbn [rbind].
    destruct (comprehension key value d) as [others|e]; [|discriminate].
    cbn [rbind]. intros [= <-]. cbn. rewrite (IH others eq_refl). reflexivity.
Qed.

(** In a comprehension over distinct keys, mapped one to one, each entry is
    found again under its key. *)
Lemma comprehension_lookup key value d items k v :
  Inj (=) (=) key →
  NoDup d.*1 →
  comprehension key value d = Ok items →
  (k, v) ∈ d →
  ∃ item, value k v = Ok item ∧ obj_get (key k) items = Some item.
Proof.
  intros Hinj. revert items. induction d as [|[k' v'] d IH]; intros items Hnd Hc Hin.
  - apply elem_of_nil in Hin as [].
  - cbn [comprehension] in Hc.
    destruct (value k' v') as [item'|e] eqn:Hv; [|discriminate].
    cbn [rbind] in Hc.
    destruct (comprehension key value d) as [others|e] eqn:Ho; [|discriminate].
    cbn [rbind] in Hc. injection Hc as <-.
    cbn in Hnd. apply NoDup_cons in Hnd as [Hk' Hnd].
    apply elem_of_cons in Hin as [[= -> ->]|Hin].
    + exists item'. split; [exact Hv|]. cbn [obj_get].
      rewrite decide_True by reflexivity. reflexivity.
    + destruct (IH others Hnd eq_refl Hin) as (item & Hitem & Hget).
      exists item. split; [exact Hitem|]. cbn [obj_get].
      rewrite decide_False; [exact Hget|].
      intros Heq. apply Hinj in Heq. subst k'.
      apply Hk'. apply list_elem_of_fmap. exists (k, v). auto.
Qed.

Lemma proxy_path_inj : Inj (=) (=) (λ function_name : string, "/proxy/" ++ function_name).
Proof. intros a b H. injection H as H. exact H. Qed.

(** X4. Whatever table of functions the schema is built from, provided it
    builds: the schema has one path per function, [/proxy/<name>], in the
    order of the table; and when the names are distinct, the entry of each
    function offers that function's own example, restricts [name] to that
    function's name and declares that function's parameters. *)
Theorem schema_has_a_path_per_function
  (functions : list (string * json)) (schema : json) :
  openapi_json_schema functions = Ok schema →
  (∃ paths,
     json_at ["paths"] schema = Some (JObj paths)
     ∧ paths.*1 = (λ name, "/proxy/" ++ name) <$> functions.*1)
  ∧ (NoDup functions.*1 →
     ∀ name info, (name, info) ∈ functions →
       let content := ["paths"; "/proxy/" ++ name; "post"; "requestBody";
                       "content"; "application/json"] in
       let function_call := (content ++ ["schema"; "properties";
                                         "function_call"; "properties"])%list in
       json_at (content ++ ["example"])%list schema = json_at ["example"] info
       ∧ json_at (function_call ++ ["name"; "enum"])%list schema
         = Some (JArr [JStr name])
       ∧ json_at (function_call ++ ["parameters"; "properties"])%list schema
         = json_at ["parameters"] info).
Proof.
  unfold openapi_json_schema.
  match goal with
  | |- context [comprehension ?key ?value functions] =>
      set (value_of := value);
      destruct (comprehension key value_of functions) as [paths|e] eqn:Hc
  end; [|discriminate].
  cbn [rbind]. intros [= <-]. split.
  - exists paths. split; [reflexivity|].
    apply (comprehension_keys _ _ _ _ Hc).
  - intros Hnd name info Hin.
    destruct (comprehension_lookup _ _ _ _ _ _ proxy_path_inj Hnd Hc Hin)
      as (item & Hitem & Hget).
    subst value_of. cbn beta in Hitem.
    destruct info as [| | | | | |members]; try discriminate Hitem.
    cbn [py_getitem] in Hitem.
    destruct (obj_get "description" members) as [summary|]; [|discriminate].
    cbn [rbind] in Hitem.
    destruct (obj_get "parameters" members) as [properties|] eqn:Hp; [|discriminate].
    cbn [rbind] in Hitem.
    destruct (obj_get "example" members) as [example|] eqn:He; [|discriminate].
    cbn [rbind] in Hitem. injection Hitem as <-.
    cbn [app]. split; [|split].
    + cbn [json_at]. cbn [obj_get].
      repeat (rewrite decide_False by discriminate; cbn [obj_get]).
      rewrite decide_True by reflexivity. rewrite Hget.
      cbn. rewrite He. reflexivity.
    + cbn [json_at]. cbn [obj_get].
      repeat (rewrite decide_False by discriminate; cbn [obj_get]).
      rewrite decide_True by reflexivity. rewrite Hget. reflexivity.
    + cbn [json_at]. cbn [obj_get].
      repeat (rewrite decide_False by discriminate; cbn [obj_get]).
      rewrite decide_True by reflexivity. rewrite Hget. cbn. rewrite Hp.
      reflexivity.
Qed.

Lemma serena_schema_builds :
  ∃ schema, openapi_json_schema SERENA_FUNCTIONS = Ok schema.
Proof. eexists. reflexivity. Qed.

Lemma serena_names_distinct : NoDup SERENA_FUNCTIONS.*1.
Proof. apply (bool_decide_unpack _). reflexivity. Qed.

Lemma schema_has_a_path_per_function_witness :
  ∃ schema,
    openapi_json_schema SERENA_FUNCTIONS = Ok schema
    ∧ json_at ["paths"; "/proxy/read_file"; "post"; "requestBody"; "content";
               "application/json"; "schema"; "properties"; "function_call";
               "properties"; "name"; "enum"] schema
      = Some (JArr [JStr "read_file"]).
Proof.
  eexists. split; [reflexivity|].
  eapply (schema_has_a_path_per_function SERENA_FUNCTIONS _ eq_refl).
  - apply (bool_decide_unpack _). reflexivity.
  - do 3 right. left.
Defined.

Example schema_missing_description :
  openapi_json_schema [("f", JObj [("parameters", JObj [])])] = Raise KeyError.
Proof. reflexivity. Qed.

Section SchemaRouteFacts.
Variable json_dumps_indent_2 : json → string.
Variable encode : string → string.

(** X5. [/openapi.json] never fails on the table of the relay. It answers
    with the indented text of the schema, as [text/plain], exactly when
    [text/] occurs somewhere in the [accept] header, whatever else the
    header lists and in whatever order of preference; otherwise, and
    without the header, it answers with the schema as JSON. *)
Theorem openapi_negotiation :
  ∃ schema,
    openapi_json_schema SERENA_FUNCTIONS = Ok schema
    ∧ ∀ accept,
        (get_openapi_schema json_dumps_indent_2 accept
           = Ok (PlainResponse (json_dumps_indent_2 schema) 200
                   "text/plain; charset=utf-8")
         ↔ ∃ before after, accept = Some (before ++ "text/" ++ after))
        ∧ (get_openapi_schema json_dumps_indent_2 accept = Ok (JSONReply schema)
           ↔ ¬ ∃ before after, accept = Some (before ++ "text/" ++ after)).
Proof.
  destruct serena_schema_builds as [schema Hs].
  exists schema. split; [exact Hs|]. intros accept.
  assert (Hc : str_contains "text/" (default EmptyString accept) = true
             ↔ ∃ before after, accept = Some (before ++ "text/" ++ after)).
  { rewrite str_contains_iff. destruct accept as [h|]; simpl.
    - split; intros (x & y & H); exists x, y; congruence.
    - split; intros (x & y & H); [|discriminate].
      destruct x; discriminate. }
  unfold get_openapi_schema. rewrite Hs. cbn [rbind]. rewrite <- Hc.
  destruct (str_contains "text/" (default EmptyString accept));
    split; split; intros H; done.
Qed.

(** X6. The two schema routes publish the same document: the schema built
    for [/openapi.txt] is the one built for [/openapi.json], for every table
    of functions; and the chunks of the [/openapi.txt] body are the encoded
    slices of exactly the text [/openapi.json] serves to a caller that
    accepts [text/plain], under the same media type. *)
Theorem openapi_routes_agree :
  (∀ functions, openapi_txt_schema functions = openapi_json_schema functions)
  ∧ ∃ document body,
      get_openapi_schema json_dumps_indent_2 (Some "text/plain")
        = Ok (PlainResponse document 200 "text/plain; charset=utf-8")
      ∧ get_openapi_schema_text json_dumps_indent_2 encode
        = Ok (StreamingReply body "text/plain; charset=utf-8"
                [("Transfer-Encoding", "chunked")])
      ∧ ∃ slices,
          sent body = encode <$> slices ∧ str_concat slices = document.
Proof.
  split; [reflexivity|].
  destruct serena_schema_builds as [schema Hs].
  exists (json_dumps_indent_2 schema),
         (generate_chunked_response encode (json_dumps_indent_2 schema)).
  split; [|split].
  - unfold get_openapi_schema. rewrite Hs. reflexivity.
  - unfold get_openapi_schema_text.
    change (openapi_txt_schema SERENA_FUNCTIONS)
      with (openapi_json_schema SERENA_FUNCTIONS).
    rewrite Hs. reflexivity.
  - eexists. split; [apply sent_generate | apply pieces_concat].
Qed.

End SchemaRouteFacts.

(** ** The documented examples *)

(** X7. Of the example requests the relay documents, the one of
    [search_code] is classified as streaming and no other: for every
    function of the table, a body that decodes to the function's example is
    streamed exactly when the function is [search_code]. *)
Theorem documented_examples_routing
  (json_loads : string → result json) (body name : string)
  (info example : json) :
  (name, info) ∈ SERENA_FUNCTIONS →
  json_at ["example"] info = Some example →
  json_loads body = Ok example →
  (is_streaming json_loads body = true ↔ name = "search_code").
Proof.
  intros Hin Hex Hb. unfold is_streaming, classify_try. rewrite Hb.
  unfold SERENA_FUNCTIONS in Hin.
  repeat (apply elem_of_cons in Hin as [[= -> ->]|Hin]);
    [..|apply elem_of_nil in Hin as []];
    injection Hex as <-; split; first [discriminate | reflexivity].
Qed.

Lemma documented_examples_routing_witness :
  is_streaming
    (λ _, Ok (JObj [("function_call", JObj [
                ("name", JStr "read_file");
                ("parameters", JObj [
                   ("filepath", JStr "/path/to/file.txt")])])]))
    read_file_body = true
  ↔ "read_file" = "search_code".
Proof.
  eapply (documented_examples_routing
            (λ _, Ok (JObj [("function_call", JObj [
                        ("name", JStr "read_file");
                        ("parameters", JObj [
                           ("filepath", JStr "/path/to/file.txt")])])]))
            read_file_body "read_file").
  - do 3 right. left.
  - reflexivity.
  - reflexivity.
Defined.

(** X8. Each documented example names the function it is documented under
    and gives a value for exactly the parameters declared for that
    function, in the order declared. *)
Theorem documented_examples_match_declarations (name : string) (info : json) :
  (name, info) ∈ SERENA_FUNCTIONS →
  json_at ["example"; "function_call"; "name"] info = Some (JStr name)
  ∧ ∃ declared given,
      json_at ["parameters"] info = Some (JObj declared)
      ∧ json_at ["example"; "function_call"; "parameters"] info
        = Some (JObj given)
      ∧ given.*1 = declared.*1.
Proof.
  intros Hin. unfold SERENA_FUNCTIONS in Hin.
  repeat (apply elem_of_cons in Hin as [[= -> ->]|Hin]);
    [..|apply elem_of_nil in Hin as []];
    (split; [reflexivity|]); eexists _, _;
    (split; [reflexivity|]); (split; [reflexivity|]); reflexivity.
Qed.

Lemma documented_examples_match_declarations_witness :
  json_at ["example"; "function_call"; "name"]
    (JObj [
      ("description", JStr "Read content from a file");
      ("parameters", JObj [
        ("filepath", JObj [
          ("type", JStr "string");
          ("description", JStr "Path to the file to read")])]);
      ("example", JObj [
        ("function_call", JObj [
          ("name", JStr "read_file");
          ("parameters", JObj [
            ("filepath", JStr "/path/to/file.txt")])])])])
  = Some (JStr "read_file").
Proof.
  eapply (documented_examples_match_declarations "read_file").
  do 3 right. left.
Defined.

(** ** Duplicate headers *)

(** X9. The header mapping sent upstream is built from the header pairs as
    a dict, so of several pairs with the same name only the last is kept:
    upstream receives, for every name but [authorization] and
    [Authorization], the value of the last inbound pair of that name, and
    [application/json] as [content-type] when there is no such pair. *)
Theorem headers_keep_last_duplicate (hdrs : list (string * string))
  (k : string) :
  outbound_headers hdrs !! k
    = (if decide (k = "authorization" ∨ k = "Authorization") then None
       else match last_value k hdrs with
            | Some v => Some v
            | None => if decide (k = "content-type")
                      then Some "application/json" else None
            end).
Proof.
  destruct (decide (k = "content-type")) as [->|Hct].
  - rewrite outbound_headers_content_type, dict_last_value.
    rewrite decide_False by (intros [H|H]; discriminate H).
    destruct (last_value "content-type" hdrs); reflexivity.
  - rewrite outbound_headers_lookup by exact Hct.
    rewrite dict_last_value.
    destruct (decide (k = "authorization" ∨ k = "Authorization"));
      [reflexivity|].
    destruct (last_value k hdrs); reflexivity.
Qed.

Example two_cookie_lines :
  outbound_headers
    (request_headers
       {| header_lines := [("Cookie", "a=1"); ("Accept", "*/*");
                           ("cookie", "b=2")];
          request_body := Ok "{}" |})
    !! "cookie" = Some "b=2".
Proof. reflexivity. Qed.

(** ** One call, one client *)

Section HandlerInvariants.
Variable json_loads : string → result json.
Variable U : Type.
Variable upstream : post_call → U → result upstream_response * U.
Variable json_response_raises : json → gmap string string → option exn.
Variable environ : gmap string string.
Variable endpoint : string.
Variable req : request.
Variable u : U.

(** X10. A run of the handler either does nothing to the outside world,
    when the request body cannot be read, or opens one client with a
    300 second timeout, issues one call and closes the client, in this
    order: the call is never repeated, and the client is closed also when
    the call raises. The upstream service is left as that one call left
    it, and untouched by a call that raises before it is sent. *)
Theorem one_call_one_client :
  (proxy json_loads upstream json_response_raises environ endpoint req u).2 =
    match request_body req with
    | Ok body =>
        [ClientOpen 300;
         Post (issued_call json_loads environ endpoint body
                 (request_headers req));
         ClientClose]
    | Raise _ => []
    end
  ∧ (proxy json_loads upstream json_response_raises environ endpoint req u).1.2 =
    match request_body req with
    | Ok body =>
        if is_streaming json_loads body then u
        else (upstream (issued_call json_loads environ endpoint body
                          (request_headers req)) u).2
    | Raise _ => u
    end.
Proof.
  split; [rewrite proxy_events; apply proxy_try_events|].
  unfold proxy.
  destruct (request_body req) as [body|e] eqn:Hb.
  - destruct (is_streaming json_loads body) eqn:Hs.
    + erewrite proxy_try_streaming by eassumption. reflexivity.
    + destruct (upstream (issued_call json_loads environ endpoint body
                            (request_headers req)) u) as [[resp|e] u'] eqn:Hup.
      * erewrite proxy_try_buffered by eassumption.
        destruct (json_response_raises _ _); reflexivity.
      * erewrite proxy_try_post_raises by eassumption. reflexivity.
  - erewrite proxy_try_body_raises by eassumption. reflexivity.
Qed.

(** X11. The status code of the relayed response is the upstream's when
    upstream answers a non-streaming request and the relay can build its
    response, whatever the status and the body: an upstream error status
    is passed on as it is. It is 500 for every request classified as
    streaming and whenever something raised in the handler. *)
Theorem status_is_upstream_status :
  (∀ body resp u',
     request_body req = Ok body →
     is_streaming json_loads body = false →
     upstream (issued_call json_loads environ endpoint body
                 (request_headers req)) u = (Ok resp, u') →
     json_response_raises (buffered_content json_loads resp)
       (with_cors (response_headers_of resp)) = None →
     response_status
       (proxy json_loads upstream json_response_raises environ endpoint
          req u).1.1
       = status_code resp)
  ∧ (∀ body,
       request_body req = Ok body →
       is_streaming json_loads body = true →
       response_status
         (proxy json_loads upstream json_response_raises environ endpoint
            req u).1.1
         = 500)
  ∧ (∀ e,
       (proxy_try json_loads upstream json_response_raises environ endpoint
          req u).1.1 = Raise e →
       response_status
         (proxy json_loads upstream json_response_raises environ endpoint
            req u).1.1
         = 500).
Proof.
  assert (Hraise : ∀ e,
    (proxy_try json_loads upstream json_response_raises environ endpoint
       req u).1.1 = Raise e →
    response_status
      (proxy json_loads upstream json_response_raises environ endpoint
         req u).1.1 = 500).
  { intros e He. rewrite (proxy_of_raise _ _ _ _ _ _ _ _ _ He).
    destruct e; reflexivity. }
  split; [|split; [|exact Hraise]].
  - intros body resp u' Hb Hs Hup Hbuilt.
    erewrite proxy_buffered by eassumption. rewrite Hbuilt. reflexivity.
  - intros body Hb Hs. apply (Hraise stream_keyword_error).
    erewrite proxy_try_streaming by eassumption. reflexivity.
Qed.

(** X12. The handler never answers with a streaming response: whatever the
    request, the upstream and the configuration, its response is a JSON
    response, so the keepalive generator is never started by it. *)
Theorem never_a_streaming_response :
  ∃ content st h,
    (proxy json_loads upstream json_response_raises environ endpoint
       req u).1.1
    = JSONResponse content st h.
Proof.
  destruct (proxy_try_outcome json_loads U upstream json_response_raises
              environ endpoint req u)
    as [[e He]|(body & resp & u' & _ & _ & _ & _ & Hok)].
  - rewrite (proxy_of_raise _ _ _ _ _ _ _ _ _ He).
    destruct e; eexists _, _, _; reflexivity.
  - rewrite (proxy_of_ok _ _ _ _ _ _ _ _ _ Hok). eauto.
Qed.

(** X13. In a buffered response that the relay can build, the headers are
    the two forced entries and, for every other name, the values of all
    upstream lines of that name, compared in lower case and joined with a
    comma and a space in the order sent. Upstream names reach the mapping
    in lower case only, so neither forced entry replaces an upstream one. *)
Theorem upstream_header_lines_merged :
  (∀ body resp u',
     request_body req = Ok body →
     is_streaming json_loads body = false →
     upstream (issued_call json_loads environ endpoint body
                 (request_headers req)) u = (Ok resp, u') →
     json_response_raises (buffered_content json_loads resp)
       (with_cors (response_headers_of resp)) = None →
     ∀ k,
       response_headers
         (proxy json_loads upstream json_response_raises environ endpoint
            req u).1.1 !! k
       = if decide (k = ACAO) then Some "*"
         else if decide (k = ACAC) then Some "false"
         else header_value k (lines (response_headers_of resp)))
  ∧ (∀ h : Headers,
       dict (items h) !! ACAO = None ∧ dict (items h) !! ACAC = None
       ∧ ∀ k, lower k ≠ k → dict (items h) !! k = None).
Proof.
  split.
  - intros body resp u' Hb Hs Hup Hbuilt k.
    erewrite proxy_buffered by eassumption. rewrite Hbuilt.
    apply with_cors_entries.
  - intros h. rewrite !dict_items.
    split; [|split].
    + apply header_value_not_lower. discriminate.
    + apply header_value_not_lower. discriminate.
    + intros k Hk. rewrite dict_items. apply header_value_not_lower, Hk.
Qed.

End HandlerInvariants.

Lemma status_is_upstream_status_witness :
  response_status
    (proxy example_loads (answers "plain text" []) starlette_raises ∅
       "find_symbol" (post_of read_file_body) tt).1.1
  = 200.
Proof.
  apply (proj1 (status_is_upstream_status example_loads unit
                  (answers "plain text" []) starlette_raises ∅ "find_symbol"
                  (post_of read_file_body) tt)
           read_file_body
           {| status_code := 200; response_headers_of := no_headers;
              json_content := "plain text"; text := "plain text";
              aiter_bytes := [] |}
           tt);
    reflexivity.
Defined.

(** Upstream headers with two lines of one name. *)
Lemma upstream_header_lines_merged_witness :
  response_headers
    (proxy example_loads
       (answers_with {| lines := [("Warning", "a"); ("warning", "b")] |}
          "{}" [])
       starlette_raises ∅ "find_symbol" (post_of read_file_body) tt).1.1
    !! "warning"
  = header_value "warning" [("Warning", "a"); ("warning", "b")].
Proof.
  apply (proj1 (upstream_header_lines_merged example_loads unit
                  (answers_with
                     {| lines := [("Warning", "a"); ("warning", "b")] |}
                     "{}" [])
                  starlette_raises ∅ "find_symbol"
                  (post_of read_file_body) tt)
           read_file_body
           {| status_code := 200;
              response_headers_of :=
                {| lines := [("Warning", "a"); ("warning", "b")] |};
              json_content := "{}"; text := "{}"; aiter_bytes := [] |}
           tt);
    reflexivity.
Defined.

Example two_warning_lines :
  header_value "warning" [("Warning", "a"); ("warning", "b")] = Some "a, b".
Proof. reflexivity. Qed.
